(** * Beiwe backend: the file-processing orchestrator and the per-user worker

    Shallow embedding of [celery_data_processing/data_processing_tasks.py]:
    - [Worker]: [celery_process_file_chunks], the per-user loop that pages
      through the pending files, skips the bad ones and mails the bundle of
      errors at the end;
    - [Orchestrator]: [create_file_processing_tasks], which takes the
      file-process lock, queues one celery task per user and polls the
      futures.

    Python integers are unbounded, so counts are [Z].  The database, the
    celery broker and the mailer are collaborators outside the file: they are
    the variables of the two sections.  [print] statements only write to
    stdout and are left out. *)

From Stdlib Require Import ZArith List Ascii String Bool Lia.
Import ListNotations.
Open Scope string_scope.
Open Scope list_scope.
Open Scope Z_scope.

(** ** Exceptions and results *)

Inductive Exn : Type :=
| ProcessingOverlapError (msg : string)
| ValueError (msg : string)
| BundledError (errors : list string)
| ExternalError (msg : string).

Inductive Result (A : Type) : Type :=
| Ok (a : A)
| Raise (e : Exn).

Arguments Ok {A} a.
Arguments Raise {A} e.

Definition UserId := string.

Module Worker.

(** [cronutils.ErrorHandler]: the object collects the errors raised under it;
    [raise_errors] raises one [BundledError] when it holds any. *)
Record ErrorHandler : Type := { errors : list string }.

Definition ErrorHandler_new : ErrorHandler := {| errors := [] |}.

Definition raise_errors (eh : ErrorHandler) : Result unit :=
  match errors eh with
  | [] => Ok tt
  | _ :: _ => Raise (BundledError (errors eh))
  end.

(** What the worker does to its collaborators, in order. *)
Inductive Event : Type :=
| EvCount (user_id : UserId) (returned : Z)
| EvProcess (count skip_count : Z) (user_id : UserId) (returned : Z)
| EvEmail (e : Exn) (subject : string).

Definition is_process (ev : Event) : bool :=
  match ev with EvProcess _ _ _ _ => true | _ => false end.

Definition is_email (ev : Event) : bool :=
  match ev with EvEmail _ _ => true | _ => false end.

(** Sum of the bad-file counts the processor returned in a trace. *)
Fixpoint bad_reported (tr : list Event) : Z :=
  match tr with
  | [] => 0
  | EvProcess _ _ _ d :: tr' => d + bad_reported tr'
  | _ :: tr' => bad_reported tr'
  end.

(** Every call of the processor in [tr] was given, as [skip_count], [acc] plus
    what the earlier calls of [tr] returned. *)
Fixpoint skips_accumulate (acc : Z) (tr : list Event) : Prop :=
  match tr with
  | [] => True
  | EvProcess _ skip _ d :: tr' => skip = acc /\ skips_accumulate (acc + d) tr'
  | _ :: tr' => skips_accumulate acc tr'
  end.

Section Loop.

(** The state of the database and of whatever else the collaborators touch. *)
Variable World : Type.

(** [config.constants.FILE_PROCESS_PAGE_SIZE]. *)
Variable FILE_PROCESS_PAGE_SIZE : Z.

(** [FilesToProcess.count(user_id=...)]: a query, it reads the world. *)
Variable FilesToProcess_count : UserId -> World -> Z.

(** [do_process_user_file_chunks(count, error_handler, skip_count, user_id)]:
    returns the number of bad files it met; it is handed the error handler
    object and may add to it, and it changes the database. *)
Variable do_process_user_file_chunks :
  Z -> ErrorHandler -> Z -> UserId -> World -> Z * ErrorHandler * World.

(** [libs.logging.email_bundled_error(e, subject)]; sending can fail. *)
Variable email_bundled_error : Exn -> string -> World -> Result unit * World.

(** The local variables of [celery_process_file_chunks] together with the
    world; [iterations] counts the executions of the loop body and [trace]
    records the calls made. *)
Record Loop : Type := {
  number_bad_files : Z;
  error_handler : ErrorHandler;
  world : World;
  iterations : nat;
  trace : list Event
}.

Definition start (w : World) : Loop :=
  {| number_bad_files := 0;
     error_handler := ErrorHandler_new;
     world := w;
     iterations := 0;
     trace := [] |}.

(** The accounting invariant of the loop: [number_bad_files] is what the processor has
    reported so far, and each call skipped exactly that many files. *)
Definition accounted (st : Loop) : Prop :=
  skips_accumulate 0 (trace st) /\ number_bad_files st = bad_reported (trace st).

(** One execution of the body of [while True]; the boolean is [true] when the
    body reaches [break]. *)
Definition loop_body (user_id : UserId) (st : Loop) : bool * Loop :=
  let previous_number_bad_files := number_bad_files st in
  let starting_length := FilesToProcess_count user_id (world st) in
  let '(bad, eh, w) :=
    do_process_user_file_chunks FILE_PROCESS_PAGE_SIZE (error_handler st)
      (number_bad_files st) user_id (world st) in
  let number_bad_files' := number_bad_files st + bad in
  let ending_length := FilesToProcess_count user_id w in
  let st' :=
    {| number_bad_files := number_bad_files';
       error_handler := eh;
       world := w;
       iterations := S (iterations st);
       trace := trace st ++
                [EvCount user_id starting_length;
                 EvProcess FILE_PROCESS_PAGE_SIZE (number_bad_files st) user_id bad;
                 EvCount user_id ending_length] |} in
  if starting_length =? ending_length
  then if previous_number_bad_files =? number_bad_files'
       then (true, st')
       else (false, st')
  else (false, st').

(** [while True: ...]: [None] when [fuel] iterations were not enough. *)
Fixpoint convergence_loop (fuel : nat) (user_id : UserId) (st : Loop)
  : option Loop :=
  match fuel with
  | O => None
  | S fuel' =>
      let (stop, st') := loop_body user_id st in
      if stop then Some st' else convergence_loop fuel' user_id st'
  end.

(** The code after the loop: the bundle is mailed inside the [except] clause,
    so what [email_bundled_error] raises leaves the function. *)
Definition report_errors (st : Loop) : Result unit * Loop :=
  match errors (error_handler st) with
  | [] => (Ok tt, st)
  | _ :: _ =>
      match raise_errors (error_handler st) with
      | Ok _ => (Ok tt, st)
      | Raise e =>
          let (r, w) := email_bundled_error e "Data Processing Error" (world st) in
          (r, {| number_bad_files := number_bad_files st;
                 error_handler := error_handler st;
                 world := w;
                 iterations := iterations st;
                 trace := trace st ++ [EvEmail e "Data Processing Error"] |})
      end
  end.

Definition celery_process_file_chunks (fuel : nat) (user_id : UserId) (w : World)
  : option (Result unit * Loop) :=
  match convergence_loop fuel user_id (start w) with
  | None => None
  | Some st => Some (report_errors st)
  end.

(** The input of the termination claim: [total] files are pending at the
    start, the count is never negative and no call of the processor raises
    it, every call returns a non-negative number, and the bad files found
    never exceed [bad], the number of distinct bad files. *)
Definition finite_input (user_id : UserId) (w0 : World) (total bad : Z) : Prop :=
  FilesToProcess_count user_id w0 = total /\
  0 <= bad /\
  (forall w, 0 <= FilesToProcess_count user_id w) /\
  (forall eh skip w,
      let '(d, _, w') :=
        do_process_user_file_chunks FILE_PROCESS_PAGE_SIZE eh skip user_id w in
      0 <= d /\
      FilesToProcess_count user_id w' <= FilesToProcess_count user_id w /\
      (0 <= skip <= bad -> skip + d <= bad)).

End Loop.

Arguments number_bad_files {World} _.
Arguments error_handler {World} _.
Arguments world {World} _.
Arguments iterations {World} _.
Arguments trace {World} _.
Arguments start {World} w.
Arguments accounted {World} st.

End Worker.

Module Orchestrator.

(** ** [datetime.datetime] *)

Record DateTime : Type := {
  year : Z; month : Z; day : Z;
  hour : Z; minute : Z; second : Z; microsecond : Z
}.

Definition is_leap (y : Z) : bool :=
  ((y mod 4 =? 0) && negb (y mod 100 =? 0)) || (y mod 400 =? 0).

Definition days_in_month (y m : Z) : Z :=
  if m =? 2 then (if is_leap y then 29 else 28)
  else if (m =? 4) || (m =? 6) || (m =? 9) || (m =? 11) then 30
  else 31.

Definition valid_date (y m d : Z) : bool :=
  (1 <=? y) && (y <=? 9999) && (1 <=? m) && (m <=? 12) &&
  (1 <=? d) && (d <=? days_in_month y m).

(** What [datetime.now()] can return. *)
Definition valid_datetime (dt : DateTime) : bool :=
  valid_date (year dt) (month dt) (day dt) &&
  (0 <=? hour dt) && (hour dt <=? 23) &&
  (0 <=? minute dt) && (minute dt <=? 59) &&
  (0 <=? second dt) && (second dt <=? 59) &&
  (0 <=? microsecond dt) && (microsecond dt <=? 999999).

(** The constructor [datetime(year, month, day, hour=h)]: the other fields
    default to 0, and a field out of its range raises [ValueError]. *)
Definition datetime (y m d h : Z) : Result DateTime :=
  if negb ((1 <=? y) && (y <=? 9999)) then Raise (ValueError "year is out of range")
  else if negb ((1 <=? m) && (m <=? 12)) then Raise (ValueError "month must be in 1..12")
  else if negb ((1 <=? d) && (d <=? days_in_month y m))
       then Raise (ValueError "day is out of range for month")
  else if negb ((0 <=? h) && (h <=? 23)) then Raise (ValueError "hour must be in 0..23")
  else Ok {| year := y; month := m; day := d;
             hour := h; minute := 0; second := 0; microsecond := 0 |}.

(** Seconds from the start of the day, to compare two times of one day. *)
Definition second_of_day (dt : DateTime) : Z :=
  hour dt * 3600 + minute dt * 60 + second dt.

(** ** Celery futures *)

(** The [AsyncResult] that [queue_user.delay] returns. *)
Record Future : Type := { task_id : nat; task_user : UserId }.

Definition STARTED_OR_WAITING : list string :=
  ["STARTED"; "whatever the state is that means queued"].

(** Python's [x in l] on a list of strings. *)
Definition str_in (x : string) (l : list string) : bool :=
  existsb (String.eqb x) l.

(** The four strings the polling loop knows. *)
Definition known_state (s : string) : bool :=
  str_in s ("SUCCESS" :: "FAILURE" :: STARTED_OR_WAITING).

Inductive Event : Type :=
| EvLock
| EvUnlock
| EvDelay (user_id : UserId) (max_retries : Z) (expires : DateTime)
| EvState (future : Future) (returned : string)
| EvSleep (seconds : Z).

Definition is_unlock (ev : Event) : bool :=
  match ev with EvUnlock => true | _ => false end.

Definition is_delay (ev : Event) : bool :=
  match ev with EvDelay _ _ _ => true | _ => false end.

(** The future whose state an event read. *)
Definition read_future (ev : Event) : option Future :=
  match ev with EvState f _ => Some f | _ => None end.

(** The event shows a unit in a final state. *)
Definition observed_terminal (ev : Event) : bool :=
  match ev with
  | EvState _ s => String.eqb s "SUCCESS" || String.eqb s "FAILURE"
  | _ => false
  end.

(** The state a run works on: the lock, the number of reads of a future's
    state made so far (the time of the result backend) and the calls made. *)
Record Run : Type := {
  locked : bool;
  clock : nat;
  trace : list Event
}.

(** Modelled from the spec: [FileProcessLock] of [db.data_access_models],
    which is not among the source files: a flag that [islocked] reads,
    [lock] marks held and [unlock] marks free whatever it was. *)
Definition FileProcessLock_islocked (s : Run) : bool := locked s.

Definition FileProcessLock_lock (s : Run) : Run :=
  {| locked := true; clock := clock s; trace := trace s ++ [EvLock] |}.

Definition FileProcessLock_unlock (s : Run) : Run :=
  {| locked := false; clock := clock s; trace := trace s ++ [EvUnlock] |}.

Definition log (evs : list Event) (s : Run) : Run :=
  {| locked := locked s; clock := clock s; trace := trace s ++ evs |}.

(** The three lists of one pass of the polling loop. *)
Record Pass : Type := {
  successful : list Future;
  failed : list Future;
  new_running : list Future;
  pass_clock : nat;
  pass_events : list Event
}.

Definition empty_pass (t : nat) : Pass :=
  {| successful := []; failed := []; new_running := [];
     pass_clock := t; pass_events := [] |}.

Section Run.

(** [datetime.now()] at the call. *)
Variable now : DateTime.

(** [FilesToProcess(field="user_id")]: a query of the database. *)
Variable FilesToProcess_user_ids : Result (list UserId).

(** [queue_user.delay(user_id, max_retries=0, expires=expiry)]; the first
    argument is the number of tasks queued before this one in the run. *)
Variable queue_user_delay : nat -> UserId -> Z -> DateTime -> Result Future.

(** [future.state]: a property that asks the result backend at every
    evaluation; the second argument is the number of earlier reads. *)
Variable future_state : Future -> nat -> string.

(** [for user_id in user_ids: running.append(queue_user.delay(...))]. *)
Fixpoint queue_all (user_ids : list UserId) (expiry : DateTime)
    (running : list Future) (s : Run) : Result (list Future) * Run :=
  match user_ids with
  | [] => (Ok running, s)
  | user_id :: rest =>
      let s' := log [EvDelay user_id 0 expiry] s in
      match queue_user_delay (List.length running) user_id 0 expiry with
      | Raise e => (Raise e, s')
      | Ok future => queue_all rest expiry (running ++ [future]) s'
      end
  end.

(** The body of [for future in running]: three [if]s, each of which
    evaluates [future.state]. *)
Definition check_future (p : Pass) (future : Future) : Pass :=
  let t := pass_clock p in
  let s1 := future_state future t in
  let s2 := future_state future (t + 1)%nat in
  let s3 := future_state future (t + 2)%nat in
  {| successful := if String.eqb s1 "SUCCESS"
                   then successful p ++ [future] else successful p;
     failed := if String.eqb s2 "FAILURE"
               then failed p ++ [future] else failed p;
     new_running := if str_in s3 STARTED_OR_WAITING
                    then new_running p ++ [future] else new_running p;
     pass_clock := (t + 3)%nat;
     pass_events := pass_events p ++
                    [EvState future s1; EvState future s2; EvState future s3] |}.

Definition poll_pass (running : list Future) (t : nat) : Pass :=
  fold_left check_future running (empty_pass t).

(** [while running: ...; running = new_running; sleep(5)]. *)
Fixpoint poll (fuel : nat) (running : list Future) (s : Run) {struct fuel}
  : option Run :=
  match running with
  | [] => Some s
  | _ :: _ =>
      match fuel with
      | O => None
      | S fuel' =>
          let p := poll_pass running (clock s) in
          poll fuel' (new_running p)
            {| locked := locked s;
               clock := pass_clock p;
               trace := trace s ++ pass_events p ++ [EvSleep 5] |}
      end
  end.

(** From read number [t] on, no future of [running] shows a state of
    [STARTED_OR_WAITING]: every unit has left the queue and the workers. *)
Definition settled (t : nat) (running : list Future) : Prop :=
  forall f n, In f running -> (t <= n)%nat ->
    str_in (future_state f n) STARTED_OR_WAITING = false.

(** [set(...)] keeps one copy of every user id. *)
Definition set (l : list UserId) : list UserId := nodup string_dec l.

Definition create_file_processing_tasks (fuel : nat) (s : Run)
  : option (Result unit * Run) :=
  if FileProcessLock_islocked s
  then Some (Raise (ProcessingOverlapError
               "Data processing overlapped with a previous data indexing run."), s)
  else
    let s1 := FileProcessLock_lock s in
    match datetime (year now) (month now) (day now) (hour now + 1) with
    | Raise e => Some (Raise e, s1)
    | Ok expiry =>
        match FilesToProcess_user_ids with
        | Raise e => Some (Raise e, s1)
        | Ok ids =>
            match queue_all (set ids) expiry [] s1 with
            | (Raise e, s2) => Some (Raise e, s2)
            | (Ok running, s2) =>
                match poll fuel running s2 with
                | None => None
                | Some s3 => Some (Ok tt, FileProcessLock_unlock s3)
                end
            end
        end
    end.

End Run.

End Orchestrator.

(** ** Example environments *)

Module Scenario.

Import Worker.

(** A queue whose first [bad] files cannot be processed and stay pending,
    followed by [good] files that a page consumes; the world is [good]. *)
Definition shelf_count (bad : Z) (_ : UserId) (good : nat) : Z :=
  Z.of_nat good + Z.max 0 bad.

Definition shelf_process (bad : Z) (count : Z) (eh : ErrorHandler) (skip_count : Z)
    (_ : UserId) (good : nat) : Z * ErrorHandler * nat :=
  let found := Z.max 0 (Z.min count (bad - skip_count)) in
  (found,
   {| errors := errors eh ++ repeat "unreadable file" (Z.to_nat found) |},
   (good - Z.to_nat (count - found))%nat).

(** A queue of five files that are all bad: the first call reports the whole
    page, a call that skips files reports nothing, and the count stays. *)
Definition stuck_count (_ : UserId) (_ : unit) : Z := 5.

Definition stuck_process (count : Z) (eh : ErrorHandler) (skip_count : Z)
    (_ : UserId) (w : unit) : Z * ErrorHandler * unit :=
  (if skip_count =? 0 then count else 0,
   {| errors := errors eh ++ ["unreadable file"] |},
   w).

Definition mail_up {W : Type} (_ : Exn) (_ : string) (w : W) : Result unit * W :=
  (Ok tt, w).

Definition mail_down {W : Type} (_ : Exn) (_ : string) (w : W) : Result unit * W :=
  (Raise (ExternalError "mail server unreachable"), w).

Import Orchestrator.

Definition afternoon : DateTime :=
  {| year := 2017; month := 6; day := 14;
     hour := 14; minute := 37; second := 12; microsecond := 0 |}.

Definition late_evening : DateTime :=
  {| year := 2017; month := 6; day := 14;
     hour := 23; minute := 15; second := 0; microsecond := 0 |}.

Definition idle : Run := {| locked := false; clock := 0; trace := [] |}.

Definition busy : Run := {| locked := true; clock := 0; trace := [] |}.

(** The broker accepts every task; the future is numbered by its position. *)
Definition broker_up (n : nat) (user_id : UserId) (_ : Z) (_ : DateTime)
  : Result Future :=
  Ok {| task_id := n; task_user := user_id |}.

(** Every unit shows the same state at every read. *)
Definition always (state : string) (_ : Future) (_ : nat) : string := state.

(** User A's unit succeeds after [t] reads, every other unit fails at once. *)
Definition a_succeeds_after (t : nat) (f : Future) (n : nat) : string :=
  if String.eqb (task_user f) "A"
  then (if (n <? t)%nat then "STARTED" else "SUCCESS")
  else "FAILURE".

End Scenario.

(** ** The celery task and more environments *)

Module Tasks.

Import Worker.

Section Task.

Variable World : Type.
Variable FILE_PROCESS_PAGE_SIZE : Z.
Variable FilesToProcess_count : UserId -> World -> Z.
Variable do_process_user_file_chunks :
  Z -> ErrorHandler -> Z -> UserId -> World -> Z * ErrorHandler * World.
Variable email_bundled_error : Exn -> string -> World -> Result unit * World.

(** [@celery_app.task def queue_user(name)]: the body of the unit of work. *)
Definition queue_user (fuel : nat) (name : UserId) (w : World)
  : option (Result unit * Loop World) :=
  celery_process_file_chunks World FILE_PROCESS_PAGE_SIZE FilesToProcess_count
    do_process_user_file_chunks email_bundled_error fuel name w.

End Task.

(** The event is a call about [user_id]; a call of the processor moreover
    asks for a page of [page] files. *)
Definition about (user_id : UserId) (page : Z) (ev : Event) : Prop :=
  match ev with
  | EvCount u _ => u = user_id
  | EvProcess c _ u _ => c = page /\ u = user_id
  | EvEmail _ _ => False
  end.

Definition is_count (ev : Event) : bool :=
  match ev with EvCount _ _ => true | _ => false end.

(** A queue that uploads refill: every call of the processor consumes a page
    and finds two new files uploaded in the meantime; the world is the
    number of pending files. *)
Definition refill_count (_ : UserId) (pending : nat) : Z := Z.of_nat pending.

Definition refill_process (count : Z) (eh : ErrorHandler) (_ : Z)
    (_ : UserId) (pending : nat) : Z * ErrorHandler * nat :=
  (0, eh, (pending - Z.to_nat count + Z.to_nat count + 2)%nat).



(** What a polling event may be when the futures of [running] are polled. *)
Definition polls (running : list Orchestrator.Future) (ev : Orchestrator.Event)
  : Prop :=
  match ev with
  | Orchestrator.EvState f _ => In f running
  | Orchestrator.EvSleep secs => secs = 5
  | _ => False
  end.

End Tasks.

(** ** The database models

    [database/common_models.py] and [database/study_models.py].  Django's
    query sets, the random generator and [json] are outside the files: they
    are the variables of the sections. *)

Module Models.

Inductive PyExn : Type :=
| ObjectIdError (msg : string)
| IndexError (msg : string)
| KeyError (key : string)
| TypeError (msg : string)
| DecodeError (msg : string).

Inductive Outcome (A : Type) : Type :=
| Return (a : A)
| Throw (e : PyExn).

Arguments Return {A} a.
Arguments Throw {A} e.

(** *** Python dictionaries

    A [dict] with string keys, in insertion order.  The operations keep the
    keys of a dictionary distinct. *)

Definition Dict (V : Type) : Type := list (string * V).

Section Dict.

Context {V : Type}.

Definition has_key (k : string) (kv : string * V) : bool := String.eqb (fst kv) k.

(** [k in d] *)
Definition dict_contains (k : string) (d : Dict V) : bool := existsb (has_key k) d.

(** [d.get(k)] *)
Definition dict_get (k : string) (d : Dict V) : option V :=
  option_map snd (find (has_key k) d).

(** [d[k] = v]: a new key goes to the end, a known key keeps its place. *)
Definition dict_set (k : string) (v : V) (d : Dict V) : Dict V :=
  if dict_contains k d
  then map (fun kv => if has_key k kv then (k, v) else kv) d
  else d ++ [(k, v)].

(** [d.pop(k)]: the value and the dictionary without the key, [KeyError]
    when the key is missing. *)
Definition dict_pop (k : string) (d : Dict V) : Outcome (V * Dict V) :=
  match dict_get k d with
  | None => Throw (KeyError k)
  | Some v => Return (v, filter (fun kv => negb (has_key k kv)) d)
  end.

End Dict.

(** *** [UtilityModel.generate_objectid_string] *)

Section ObjectId.

(** [config.study_constants.OBJECT_ID_ALLOWED_CHARS] *)
Variable OBJECT_ID_ALLOWED_CHARS : string.

(** [cls.objects.filter(...).exists()] with the keyword [field_name] set to
    the candidate: a query of the table of [cls]. *)
Variable row_exists : string -> string -> bool.

(** The random integers the generator gives, in the order they are drawn. *)
Variable rng : nat -> nat.

(** [random.choice(seq)] with the random integer [r]: an element of [seq],
    [IndexError] on an empty sequence. *)
Definition random_choice (seq : list ascii) (r : nat) : Outcome ascii :=
  match seq with
  | [] => Throw (IndexError "Cannot choose from an empty sequence")
  | c :: _ => Return (nth (r mod List.length seq) seq c)
  end.

(** [random_choice(OBJECT_ID_ALLOWED_CHARS) for _ in range(n)], drawing
    from position [pos] of the random sequence. *)
Fixpoint random_chars (n pos : nat) : Outcome (list ascii) :=
  match n with
  | O => Return []
  | S n' =>
      match random_choice (list_ascii_of_string OBJECT_ID_ALLOWED_CHARS) (rng pos) with
      | Throw e => Throw e
      | Return c =>
          match random_chars n' (S pos) with
          | Throw e => Throw e
          | Return cs => Return (c :: cs)
          end
      end
  end.

(** [''.join(... for _ in range(24))] *)
Definition random_object_id (pos : nat) : Outcome string :=
  match random_chars 24 pos with
  | Throw e => Throw e
  | Return cs => Return (string_of_list_ascii cs)
  end.

(** [for _ in range(attempts): ... break ... else: raise ObjectIdError]; the
    second component is the position reached in the random sequence. *)
Fixpoint try_object_ids (attempts : nat) (cls_name field_name : string) (pos : nat)
  : Outcome string * nat :=
  match attempts with
  | O => (Throw (ObjectIdError
                   ("Could not generate unique id for " ++ cls_name ++ ".")%string),
          pos)
  | S attempts' =>
      match random_object_id pos with
      | Throw e => (Throw e, pos)
      | Return object_id =>
          if negb (row_exists field_name object_id)
          then (Return object_id, (pos + 24)%nat)
          else try_object_ids attempts' cls_name field_name (pos + 24)%nat
      end
  end.

Definition generate_objectid_string (cls_name field_name : string) (pos : nat)
  : Outcome string * nat :=
  try_object_ids 10 cls_name field_name pos.

(** The string that the 24 random integers from position [pos] on select. *)
Definition drawn (pos : nat) : string :=
  let chars := list_ascii_of_string OBJECT_ID_ALLOWED_CHARS in
  string_of_list_ascii
    (map (fun i => nth (rng (pos + i) mod List.length chars) chars Ascii.zero)
       (seq 0 24)).

End ObjectId.

(** *** [UtilityModel.as_unpacked_native_python] and [as_dict] *)

(** The classes of field that [as_unpacked_native_python] tells apart. *)
Inductive FieldKind : Type :=
| RelatedField
| JSONTextField
| TimeZoneField
| OtherField.

Record Field : Type := { name : string; kind : FieldKind }.

Section Values.

(** The values of Python. *)
Variable Value : Type.

(** [json.loads] *)
Variable json_loads : Value -> Outcome Value.

(** [str] *)
Variable str : Value -> Value.

(** A model instance: [self._meta.fields] and [getattr(self, name)]. *)
Record Instance : Type := {
  meta_fields : list Field;
  getattr : string -> Value
}.

Definition is_timestamp (field_name : string) : bool :=
  String.eqb field_name "created_on" || String.eqb field_name "last_updated".

(** [for field in self._meta.fields: ...] *)
Fixpoint unpack_fields (self : Instance) (remove_timestamps : bool)
    (fields : list Field) (field_dict : Dict Value) : Outcome (Dict Value) :=
  match fields with
  | [] => Return field_dict
  | field :: rest =>
      let field_name := name field in
      match kind field with
      | RelatedField => unpack_fields self remove_timestamps rest field_dict
      | JSONTextField =>
          let field_raw_val := getattr self field_name in
          match json_loads field_raw_val with
          | Throw e => Throw e
          | Return v =>
              unpack_fields self remove_timestamps rest (dict_set field_name v field_dict)
          end
      | TimeZoneField =>
          if remove_timestamps && is_timestamp field_name
          then unpack_fields self remove_timestamps rest field_dict
          else unpack_fields self remove_timestamps rest
                 (dict_set field_name (str (getattr self field_name)) field_dict)
      | OtherField =>
          if remove_timestamps && is_timestamp field_name
          then unpack_fields self remove_timestamps rest field_dict
          else unpack_fields self remove_timestamps rest
                 (dict_set field_name (getattr self field_name) field_dict)
      end
  end.

Definition as_unpacked_native_python (self : Instance) (remove_timestamps : bool)
  : Outcome (Dict Value) :=
  unpack_fields self remove_timestamps (meta_fields self) [].

(** [{field.name: getattr(self, field.name) for field in self._meta.fields}] *)
Definition as_dict (self : Instance) : Dict Value :=
  fold_left (fun d field => dict_set (name field) (getattr self (name field)) d)
    (meta_fields self) [].

(** The field is one that [as_unpacked_native_python] puts in its result. *)
Definition exported (remove_timestamps : bool) (field : Field) : bool :=
  match kind field with
  | RelatedField => false
  | JSONTextField => true
  | TimeZoneField | OtherField => negb (remove_timestamps && is_timestamp (name field))
  end.

(** The value it puts there. *)
Definition unpacked_value (self : Instance) (field : Field) : Outcome Value :=
  match kind field with
  | JSONTextField => json_loads (getattr self (name field))
  | TimeZoneField => Return (str (getattr self (name field)))
  | _ => Return (getattr self (name field))
  end.

(** *** [Study.as_native_python]

    [super_as_native_python] is [AbstractModel.as_native_python], of
    [database.models], which is not among the source files. *)
Definition Study_as_native_python (super_as_native_python : bool -> Dict Value)
    (remove_timestamps remove_encryption_key : bool) : Outcome (Dict Value) :=
  let ret := super_as_native_python remove_timestamps in
  match dict_pop "encryption_key" ret with
  | Throw e => Throw e
  | Return (_, ret') => Return ret'
  end.

(** *** [Survey.format_survey_for_study] and [Study.get_surveys_for_study] *)

(** A row of [Survey]: the columns the code reads and the dictionary that
    [survey.as_native_python()] gives. *)
Record Survey : Type := {
  deleted : bool;
  survey_type : string;
  as_native_python : Dict Value
}.

Definition format_survey_for_study (self : Survey) : Outcome (Dict Value) :=
  let survey_dict := as_native_python self in
  match dict_pop "id" survey_dict with
  | Throw e => Throw e
  | Return (_, d1) =>
      match dict_pop "deleted" d1 with
      | Throw e => Throw e
      | Return (_, d2) =>
          match dict_pop "object_id" d2 with
          | Throw e => Throw e
          | Return (object_id, d3) => Return (dict_set "_id" object_id d3)
          end
      end
  end.

(** [for survey in self.surveys.filter(deleted=False): ...] *)
Fixpoint surveys_loop (requesting_os : string) (surveys : list Survey)
    (survey_json_list : list (Dict Value)) : Outcome (list (Dict Value)) :=
  match surveys with
  | [] => Return survey_json_list
  | survey :: rest =>
      let survey_dict := as_native_python survey in
      match dict_pop "id" survey_dict with
      | Throw e => Throw e
      | Return (_, d1) =>
          match dict_pop "deleted" d1 with
          | Throw e => Throw e
          | Return (_, d2) =>
              match dict_pop "object_id" d2 with
              | Throw e => Throw e
              | Return (object_id, d3) =>
                  let survey_dict' := dict_set "_id" object_id d3 in
                  if String.eqb requesting_os "ANDROID" &&
                     String.eqb (survey_type survey) "image_survey"
                  then surveys_loop requesting_os rest survey_json_list
                  else surveys_loop requesting_os rest
                         (survey_json_list ++ [survey_dict'])
              end
          end
      end
  end.

Definition get_surveys_for_study (surveys : list Survey) (requesting_os : string)
  : Outcome (list (Dict Value)) :=
  surveys_loop requesting_os (filter (fun survey => negb (deleted survey)) surveys) [].

(** The surveys that [requesting_os] is sent. *)
Definition sent_to (requesting_os : string) (survey : Survey) : bool :=
  negb (deleted survey) &&
  negb (String.eqb requesting_os "ANDROID" &&
        String.eqb (survey_type survey) "image_survey").

End Values.

Arguments meta_fields {Value} _.
Arguments getattr {Value} _ _.
Arguments deleted {Value} _.
Arguments survey_type {Value} _.
Arguments as_native_python {Value} _.

(** *** [Survey.create_with_object_id] and [Survey.create_with_settings] *)

Section Creation.

Variable Value : Type.

(** A Python [str] as a value. *)
Variable PyStr : string -> Value.

(** [json.dumps(AUDIO_SURVEY_SETTINGS)] and [json.dumps(IMAGE_SURVEY_SETTINGS)],
    the constants being of [config.study_constants]. *)
Variable AUDIO_SURVEY_SETTINGS_json : Value.
Variable IMAGE_SURVEY_SETTINGS_json : Value.

(** [cls.objects.create]: the row made from the keyword arguments. *)
Variable Row : Type.
Variable objects_create : Dict Value -> Outcome Row.

Variable OBJECT_ID_ALLOWED_CHARS : string.
Variable row_exists : string -> string -> bool.
Variable rng : nat -> nat.

Definition AUDIO_SURVEY : string := "audio_survey".
Definition IMAGE_SURVEY : string := "image_survey".

(** [cls.objects.create(object_id=object_id, **kwargs)] after the id is
    generated; a second [object_id] among [kwargs] is a [TypeError] of the
    call. *)
Definition Survey_create_with_object_id (kwargs : Dict Value) (pos : nat)
  : Outcome Row * nat :=
  match generate_objectid_string OBJECT_ID_ALLOWED_CHARS row_exists rng
          "Survey" "object_id" pos with
  | (Throw e, pos') => (Throw e, pos')
  | (Return object_id, pos') =>
      if dict_contains "object_id" kwargs
      then (Throw (TypeError "got multiple values for keyword argument 'object_id'"),
            pos')
      else (objects_create (("object_id", PyStr object_id) :: kwargs), pos')
  end.

Definition create_with_settings (survey_type : string) (kwargs : Dict Value)
    (pos : nat) : Outcome Row * nat :=
  let kwargs' :=
    if String.eqb survey_type AUDIO_SURVEY && negb (dict_contains "settings" kwargs)
    then dict_set "settings" AUDIO_SURVEY_SETTINGS_json kwargs
    else if String.eqb survey_type IMAGE_SURVEY && negb (dict_contains "settings" kwargs)
    then dict_set "settings" IMAGE_SURVEY_SETTINGS_json kwargs
    else kwargs in
  Survey_create_with_object_id (("survey_type", PyStr survey_type) :: kwargs') pos.

(** The settings a new survey of [survey_type] gets when the caller gives
    [given]. *)
Definition settings_for (survey_type : string) (given : option Value) : option Value :=
  match given with
  | Some v => Some v
  | None =>
      if String.eqb survey_type AUDIO_SURVEY then Some AUDIO_SURVEY_SETTINGS_json
      else if String.eqb survey_type IMAGE_SURVEY then Some IMAGE_SURVEY_SETTINGS_json
      else None
  end.

End Creation.

(** An alphabet, a random sequence that counts up, a table in which the
    first id that sequence selects is taken, and a table in which every id
    is. *)
Definition hex_chars : string := "0123456789abcdef".

Definition counting (n : nat) : nat := n.

Definition taken (_ : string) (object_id : string) : bool :=
  String.eqb object_id "0123456789abcdef01234567".

Definition all_taken (_ : string) (_ : string) : bool := true.

(** A participant-like instance, with strings for values. *)
Definition sample_fields : list Field :=
  [ {| name := "id"; kind := OtherField |};
    {| name := "created_on"; kind := OtherField |};
    {| name := "study"; kind := RelatedField |};
    {| name := "content"; kind := JSONTextField |};
    {| name := "timezone"; kind := TimeZoneField |} ].

Definition sample : Instance string :=
  {| meta_fields := sample_fields; getattr := fun field_name => field_name |}.

Definition loads_ok (doc : string) : Outcome string := Return ("parsed " ++ doc)%string.

Definition sample_survey (deleted_ : bool) (type_ : string) : Survey string :=
  {| deleted := deleted_;
     survey_type := type_;
     as_native_python :=
       [("id", "7"); ("deleted", "False"); ("object_id", "abc");
        ("survey_type", type_)] |}.

End Models.

(** ** The worker: properties of [celery_process_file_chunks] *)

Module WorkerSpec.

Import Worker.

(** The accounting of bad files goes through a trace that grows at the end. *)
Lemma bad_reported_app (tr1 tr2 : list Event) :
  bad_reported (tr1 ++ tr2) = bad_reported tr1 + bad_reported tr2.
Proof.
  induction tr1 as [|ev tr1 IH]; simpl; [reflexivity|].
  destruct ev; rewrite IH; lia.
Qed.

Lemma skips_accumulate_app (acc : Z) (tr1 tr2 : list Event) :
  skips_accumulate acc (tr1 ++ tr2) <->
  skips_accumulate acc tr1 /\ skips_accumulate (acc + bad_reported tr1) tr2.
Proof.
  revert acc. induction tr1 as [|ev tr1 IH]; intros acc; simpl.
  - rewrite Z.add_0_r. tauto.
  - destruct ev; rewrite ?IH, ?Z.add_assoc; tauto.
Qed.

Section Facts.

Variable World : Type.
Variable FILE_PROCESS_PAGE_SIZE : Z.
Variable FilesToProcess_count : UserId -> World -> Z.
Variable do_process_user_file_chunks :
  Z -> ErrorHandler -> Z -> UserId -> World -> Z * ErrorHandler * World.

Local Abbreviation body :=
  (loop_body World FILE_PROCESS_PAGE_SIZE FilesToProcess_count
     do_process_user_file_chunks).
Local Abbreviation loop :=
  (convergence_loop World FILE_PROCESS_PAGE_SIZE FilesToProcess_count
     do_process_user_file_chunks).
Local Abbreviation process := (do_process_user_file_chunks FILE_PROCESS_PAGE_SIZE).
Local Abbreviation count := FilesToProcess_count.

(** The body in one equation: the call of the processor, the new state and
    the test that decides between [break] and another iteration. *)
Lemma body_unfold (user_id : UserId) (st : Loop World) :
  exists d eh w,
    process (error_handler st) (number_bad_files st) user_id (world st) = (d, eh, w) /\
    body user_id st =
      ((count user_id (world st) =? count user_id w) &&
       (number_bad_files st =? number_bad_files st + d),
       {| number_bad_files := number_bad_files st + d;
          error_handler := eh;
          world := w;
          iterations := S (iterations st);
          trace := trace st ++
                   [EvCount user_id (count user_id (world st));
                    EvProcess FILE_PROCESS_PAGE_SIZE (number_bad_files st) user_id d;
                    EvCount user_id (count user_id w)] |}).
Proof.
  unfold loop_body.
  destruct (process (error_handler st) (number_bad_files st) user_id (world st))
    as [[d eh] w] eqn:Hp.
  exists d, eh, w. split; [reflexivity|].
  destruct (count user_id (world st) =? count user_id w);
    destruct (number_bad_files st =? number_bad_files st + d); reflexivity.
Qed.

Lemma loop_step (fuel : nat) (user_id : UserId) (st : Loop World) :
  loop (S fuel) user_id st =
  if fst (body user_id st) then Some (snd (body user_id st))
  else loop fuel user_id (snd (body user_id st)).
Proof.
  simpl. destruct (body user_id st) as [stop st']. reflexivity.
Qed.

Lemma accounted_start (w : World) : accounted (start w).
Proof. split; simpl; auto. Qed.

Lemma accounted_body (user_id : UserId) (st : Loop World) :
  accounted st -> accounted (snd (body user_id st)).
Proof.
  intros [Hs Hn].
  destruct (body_unfold user_id st) as (d & eh & w & _ & ->).
  unfold accounted; simpl. rewrite skips_accumulate_app, bad_reported_app.
  simpl. rewrite <- Hn. repeat split; auto; lia.
Qed.

Lemma accounted_loop (fuel : nat) (user_id : UserId) (st st' : Loop World) :
  accounted st -> loop fuel user_id st = Some st' -> accounted st'.
Proof.
  revert st. induction fuel as [|fuel IH]; intros st Hacc Hrun; [discriminate|].
  rewrite loop_step in Hrun.
  pose proof (accounted_body user_id st Hacc) as Hacc'.
  destruct (fst (body user_id st)).
  - injection Hrun as <-. exact Hacc'.
  - eapply IH; eauto.
Qed.

(** More fuel does not change the result of a run that ended. *)
Lemma loop_more_fuel (fuel extra : nat) (user_id : UserId) (st st' : Loop World) :
  loop fuel user_id st = Some st' -> loop (fuel + extra) user_id st = Some st'.
Proof.
  revert st. induction fuel as [|fuel IH]; intros st Hrun; [discriminate|].
  change (S fuel + extra)%nat with (S (fuel + extra)).
  rewrite loop_step in *.
  destruct (fst (body user_id st)); auto.
Qed.

(** [iterations] counts the calls of the processor. *)
Lemma iterations_body (user_id : UserId) (st : Loop World) :
  iterations st = List.length (filter is_process (trace st)) ->
  iterations (snd (body user_id st)) =
  List.length (filter is_process (trace (snd (body user_id st)))).
Proof.
  intros Hit.
  destruct (body_unfold user_id st) as (d & eh & w & _ & ->). simpl.
  rewrite filter_app, length_app. simpl. lia.
Qed.

Lemma iterations_loop (fuel : nat) (user_id : UserId) (st st' : Loop World) :
  iterations st = List.length (filter is_process (trace st)) ->
  loop fuel user_id st = Some st' ->
  iterations st' = List.length (filter is_process (trace st')).
Proof.
  revert st. induction fuel as [|fuel IH]; intros st Hit Hrun; [discriminate|].
  rewrite loop_step in Hrun.
  pose proof (iterations_body user_id st Hit) as Hit'.
  destruct (fst (body user_id st)).
  - injection Hrun as <-. exact Hit'.
  - eapply IH; eauto.
Qed.

(** C2: an iteration reaches [break] exactly when the number of pending files
    it reads at its end equals the one read at its start and the number of
    bad files did not grow; otherwise the loop runs the body again.  The call
    of the processor is given the bad files counted so far as [skip_count],
    and in a whole run that count is the sum of what the earlier calls
    returned. *)
Theorem loop_exit_rule (user_id : UserId) (st : Loop World) :
  let stop := fst (body user_id st) in
  let st' := snd (body user_id st) in
  (stop = true <->
     count user_id (world st') = count user_id (world st) /\
     number_bad_files st' = number_bad_files st) /\
  (forall fuel,
     loop (S fuel) user_id st = if stop then Some st' else loop fuel user_id st') /\
  (exists d,
     number_bad_files st' = number_bad_files st + d /\
     trace st' = trace st ++
       [EvCount user_id (count user_id (world st));
        EvProcess FILE_PROCESS_PAGE_SIZE (number_bad_files st) user_id d;
        EvCount user_id (count user_id (world st'))]) /\
  (forall fuel w st_end,
     loop fuel user_id (start w) = Some st_end -> accounted st_end).
Proof.
  cbv zeta.
  destruct (body_unfold user_id st) as (d & eh & w & _ & Hb).
  split; [|split; [|split]].
  - rewrite Hb. simpl. rewrite andb_true_iff, !Z.eqb_eq.
    split; intros [H1 H2]; split; lia.
  - intros fuel. apply loop_step.
  - rewrite Hb. simpl. exists d. split; reflexivity.
  - intros fuel w0 st_end Hrun.
    eapply accounted_loop; [apply accounted_start | exact Hrun].
Qed.

(** Termination, with the measure "files pending plus bad files not yet
    found": an iteration that does not break lowers it. *)
Lemma loop_terminates_from (user_id : UserId) (bad : Z) :
  (forall w, 0 <= count user_id w) ->
  (forall eh skip w,
      let '(d, _, w') := process eh skip user_id w in
      0 <= d /\ count user_id w' <= count user_id w /\
      (0 <= skip <= bad -> skip + d <= bad)) ->
  forall (n : nat) (st : Loop World) (fuel : nat),
    0 <= number_bad_files st <= bad ->
    count user_id (world st) + (bad - number_bad_files st) <= Z.of_nat n ->
    (n < fuel)%nat ->
    exists st', loop fuel user_id st = Some st' /\
                (iterations st' <= iterations st + n + 1)%nat.
Proof.
  intros Hpos Hproc.
  induction n as [|n IH]; intros st fuel Hbad Hm Hfuel;
    (destruct fuel as [|fuel]; [lia|]);
    rewrite loop_step;
    destruct (body_unfold user_id st) as (d & eh & w & Hp & Hb);
    pose proof (Hproc (error_handler st) (number_bad_files st) (world st)) as Hcall;
    rewrite Hp in Hcall; destruct Hcall as (Hd & Hc & Hs);
    specialize (Hs Hbad);
    pose proof (Hpos w) as Hw; pose proof (Hpos (world st)) as Hw0;
    rewrite Hb; simpl.
  - replace (count user_id (world st) =? count user_id w) with true
      by (symmetry; apply Z.eqb_eq; lia).
    replace (number_bad_files st =? number_bad_files st + d) with true
      by (symmetry; apply Z.eqb_eq; lia).
    simpl. eexists. split; [reflexivity|]. simpl. lia.
  - destruct ((count user_id (world st) =? count user_id w) &&
              (number_bad_files st =? number_bad_files st + d)) eqn:Hstop.
    + eexists. split; [reflexivity|]. simpl. lia.
    + apply andb_false_iff in Hstop.
      edestruct (IH {| number_bad_files := number_bad_files st + d;
                       error_handler := eh; world := w;
                       iterations := S (iterations st);
                       trace := trace st ++
                         [EvCount user_id (count user_id (world st));
                          EvProcess FILE_PROCESS_PAGE_SIZE (number_bad_files st) user_id d;
                          EvCount user_id (count user_id w)] |} fuel)
        as (st' & Hrun & Hit); simpl;
        [lia | destruct Hstop as [Hne | Hne]; apply Z.eqb_neq in Hne; lia | lia |].
      exists st'. split; [exact Hrun|]. simpl in Hit. lia.
Qed.

(** C1, amended: on a finite input the loop ends, after at most
    [total + bad + 1] executions of its body: one for every file consumed or
    bad file found, and the last one, which finds nothing to do. *)
Theorem loop_terminates (user_id : UserId) (w0 : World) (total bad : Z) (fuel : nat) :
  finite_input World FILE_PROCESS_PAGE_SIZE count do_process_user_file_chunks
    user_id w0 total bad ->
  (Z.to_nat (total + bad) < fuel)%nat ->
  exists st,
    loop fuel user_id (start w0) = Some st /\
    Z.of_nat (iterations st) <= total + bad + 1.
Proof.
  intros (Htotal & Hbad & Hpos & Hproc) Hfuel.
  pose proof (Hpos w0) as Hw0.
  destruct (loop_terminates_from user_id bad Hpos Hproc
              (Z.to_nat (total + bad)) (start w0) fuel) as (st & Hrun & Hit);
    simpl; try lia.
  exists st. split; [exact Hrun|]. simpl in Hit. lia.
Qed.

(** C6: when the first call reports the whole page as bad, the calls that
    skip files report none and the number of pending files never changes,
    the loop ends after exactly two iterations with [number_bad_files] equal
    to the page size (which is taken to be a real page: not 0). *)
Theorem all_bad_two_iterations (user_id : UserId) (w0 : World) (fuel : nat) :
  FILE_PROCESS_PAGE_SIZE <> 0 ->
  (forall eh skip w,
      count user_id (snd (process eh skip user_id w)) = count user_id w) ->
  (forall eh w,
      fst (fst (process eh 0 user_id w)) = FILE_PROCESS_PAGE_SIZE) ->
  (forall eh skip w,
      skip <> 0 -> fst (fst (process eh skip user_id w)) = 0) ->
  (2 <= fuel)%nat ->
  exists st,
    loop fuel user_id (start w0) = Some st /\
    iterations st = 2%nat /\
    number_bad_files st = FILE_PROCESS_PAGE_SIZE.
Proof.
  intros Hpage Hsame Hfirst Hnext Hfuel.
  destruct fuel as [|[|fuel]]; try lia.
  rewrite loop_step.
  destruct (body_unfold user_id (start w0)) as (d1 & eh1 & w1 & Hp1 & ->).
  cbn [fst snd start number_bad_files error_handler world iterations trace] in *.
  pose proof (Hfirst ErrorHandler_new w0) as Hd1. rewrite Hp1 in Hd1.
  pose proof (Hsame ErrorHandler_new 0 w0) as Hc1. rewrite Hp1 in Hc1.
  cbn [fst snd] in Hd1, Hc1. subst d1.
  rewrite Hc1, Z.eqb_refl, Z.add_0_l.
  replace (0 =? FILE_PROCESS_PAGE_SIZE) with false
    by (symmetry; apply Z.eqb_neq; lia).
  cbn [andb].
  rewrite loop_step.
  match goal with |- context [body user_id ?s] =>
    destruct (body_unfold user_id s) as (d2 & eh2 & w2 & Hp2 & ->) end.
  cbn [fst snd number_bad_files error_handler world iterations trace] in *.
  pose proof (Hnext eh1 FILE_PROCESS_PAGE_SIZE w1 Hpage) as Hd2.
  rewrite Hp2 in Hd2.
  pose proof (Hsame eh1 FILE_PROCESS_PAGE_SIZE w1) as Hc2.
  rewrite Hp2 in Hc2.
  cbn [fst snd] in Hd2, Hc2. subst d2.
  rewrite Hc2, Z.add_0_r, !Z.eqb_refl.
  cbn [andb].
  eexists. split; [reflexivity|]. cbn. split; reflexivity.
Qed.

(** C7, amended: for a user with no pending file the body of the loop runs
    once: the processor is called one time, with nothing to skip, and the
    loop breaks at the end of that first iteration. *)
Theorem no_files_one_iteration (user_id : UserId) (w0 w1 : World)
    (eh1 : ErrorHandler) (fuel : nat) :
  count user_id w0 = 0 ->
  process ErrorHandler_new 0 user_id w0 = (0, eh1, w1) ->
  count user_id w1 = 0 ->
  (1 <= fuel)%nat ->
  exists st,
    loop fuel user_id (start w0) = Some st /\
    iterations st = 1%nat /\
    number_bad_files st = 0 /\
    trace st = [EvCount user_id 0;
                EvProcess FILE_PROCESS_PAGE_SIZE 0 user_id 0;
                EvCount user_id 0].
Proof.
  intros H0 Hp H1 Hfuel.
  destruct fuel as [|fuel]; [lia|].
  rewrite loop_step.
  destruct (body_unfold user_id (start w0)) as (d & eh & w & Hp' & ->).
  simpl in Hp'. rewrite Hp in Hp'. injection Hp' as <- <- <-.
  simpl. rewrite H0, H1. simpl.
  eexists. split; [reflexivity|]. simpl. auto.
Qed.

(** The loop itself never mails: its events are counts and calls of the
    processor. *)
Lemma loop_sends_nothing (fuel : nat) (user_id : UserId) (st st' : Loop World) :
  filter is_email (trace st) = [] ->
  loop fuel user_id st = Some st' ->
  filter is_email (trace st') = [].
Proof.
  revert st. induction fuel as [|fuel IH]; intros st Hnone Hrun; [discriminate|].
  rewrite loop_step in Hrun.
  assert (Hnone' : filter is_email (trace (snd (body user_id st))) = []).
  { destruct (body_unfold user_id st) as (d & eh & w & _ & ->). simpl.
    rewrite filter_app, Hnone. reflexivity. }
  destruct (fst (body user_id st)).
  - injection Hrun as <-. exact Hnone'.
  - eapply IH; eauto.
Qed.

Section Reporting.

Variable email_bundled_error : Exn -> string -> World -> Result unit * World.

Local Abbreviation task :=
  (celery_process_file_chunks World FILE_PROCESS_PAGE_SIZE FilesToProcess_count
     do_process_user_file_chunks email_bundled_error).

(** C8, amended: nothing is mailed while the loop runs; after it, an empty
    collector sends nothing and a collector that holds errors sends exactly
    one mail, which bundles all of them.  The [BundledError] that
    [raise_errors] raises is caught, but the mail is sent from the [except]
    clause: the outcome of [email_bundled_error], a failure included, is the
    outcome of the task. *)
Theorem errors_reported_once (fuel : nat) (user_id : UserId) (w : World)
    (r : Result unit) (st : Loop World) :
  task fuel user_id w = Some (r, st) ->
  exists st0,
    loop fuel user_id (start w) = Some st0 /\
    filter is_email (trace st0) = [] /\
    match errors (error_handler st0) with
    | [] => r = Ok tt /\ st = st0
    | _ :: _ =>
        let bundle := BundledError (errors (error_handler st0)) in
        trace st = trace st0 ++ [EvEmail bundle "Data Processing Error"] /\
        filter is_email (trace st) = [EvEmail bundle "Data Processing Error"] /\
        r = fst (email_bundled_error bundle "Data Processing Error" (world st0)) /\
        world st = snd (email_bundled_error bundle "Data Processing Error" (world st0))
    end.
Proof.
  unfold celery_process_file_chunks. intros Hrun.
  destruct (loop fuel user_id (start w)) as [st0|] eqn:Hloop; [|discriminate].
  injection Hrun as Hrep.
  assert (Hnone : filter is_email (trace st0) = [])
    by (eapply loop_sends_nothing; [|exact Hloop]; reflexivity).
  exists st0. split; [reflexivity|]. split; [exact Hnone|].
  unfold report_errors, raise_errors in Hrep.
  destruct (errors (error_handler st0)) as [|e es] eqn:Hes.
  - injection Hrep as <- <-. split; reflexivity.
  - cbv zeta.
    destruct (email_bundled_error (BundledError (e :: es)) "Data Processing Error"
                (world st0)) as [r' w'] eqn:Hmail.
    injection Hrep as <- <-. simpl.
    rewrite filter_app, Hnone. simpl. repeat split; reflexivity.
Qed.

End Reporting.

End Facts.


Section Shelf.

Import Scenario.

Variable page bad : Z.

(** The shelf is a finite input: nothing refills it and it holds [bad] bad
    files. *)
Lemma shelf_finite_input (user_id : UserId) (good : nat) :
  0 <= bad ->
  finite_input nat page (shelf_count bad) (shelf_process bad)
    user_id good (Z.of_nat good + bad) bad.
Proof.
  intros Hbad. unfold finite_input, shelf_count, shelf_process.
  repeat split; try lia.
Qed.

End Shelf.

(** C1, as stated, fails: one good file and no bad one make a finite input
    with [total_files + distinct_bad_files = 1], and the loop needs two
    iterations: the first consumes the file, the second sees that nothing
    is left. *)
Lemma loop_bound_off_by_one :
  finite_input nat 5 (Scenario.shelf_count 0) (Scenario.shelf_process 0) "A" 1%nat 1 0 /\
  ~ (exists fuel st,
       convergence_loop nat 5 (Scenario.shelf_count 0) (Scenario.shelf_process 0)
         fuel "A" (start 1%nat) = Some st /\
       Z.of_nat (iterations st) <= 1 + 0).
Proof.
  split.
  - apply (shelf_finite_input 5 0 "A" 1%nat). lia.
  - intros (fuel & st & Hrun & Hle).
    destruct fuel as [|[|fuel]]; try discriminate.
    vm_compute in Hrun. injection Hrun as <-. vm_compute in Hle. apply Hle. reflexivity.
Qed.

Lemma loop_terminates_witness :
  exists st,
    convergence_loop nat 5 (Scenario.shelf_count 2) (Scenario.shelf_process 2)
      20 "A" (start 10%nat) = Some st /\
    Z.of_nat (iterations st) <= 12 + 2 + 1.
Proof.
  apply (loop_terminates nat 5 (Scenario.shelf_count 2) (Scenario.shelf_process 2)
           "A" 10%nat 12 2 20).
  - apply (shelf_finite_input 5 2 "A" 10%nat). lia.
  - vm_compute. lia.
Defined.

Lemma loop_exit_rule_witness :
  exists st,
    convergence_loop nat 5 (Scenario.shelf_count 2) (Scenario.shelf_process 2)
      4 "A" (start 10%nat) = Some st /\
    accounted st.
Proof.
  destruct (loop_exit_rule nat 5 (Scenario.shelf_count 2) (Scenario.shelf_process 2)
              "A" (start 10%nat)) as (_ & _ & _ & Hacc).
  eexists. split; [reflexivity|].
  apply (Hacc 4%nat 10%nat). reflexivity.
Defined.

Lemma all_bad_two_iterations_witness :
  exists st,
    convergence_loop unit 5 Scenario.stuck_count Scenario.stuck_process
      2 "B" (start tt) = Some st /\
    iterations st = 2%nat /\
    number_bad_files st = 5.
Proof.
  apply (all_bad_two_iterations unit 5 Scenario.stuck_count Scenario.stuck_process
           "B" tt 2).
  - discriminate.
  - reflexivity.
  - reflexivity.
  - intros eh skip w Hskip. unfold Scenario.stuck_process. simpl.
    destruct (Z.eqb_spec skip 0); [contradiction | reflexivity].
  - lia.
Defined.

(** C7, as stated, fails: with no pending file and a processor that finds no
    bad file, no run of the loop ends with 0 iterations, or without a call of
    the processor. *)
Lemma no_files_still_one_call :
  Scenario.shelf_count 0 "C" 0%nat = 0 /\
  fst (fst (Scenario.shelf_process 0 5 ErrorHandler_new 0 "C" 0%nat)) = 0 /\
  ~ (exists fuel st,
       convergence_loop nat 5 (Scenario.shelf_count 0) (Scenario.shelf_process 0)
         fuel "C" (start 0%nat) = Some st /\
       (iterations st = 0%nat \/ filter is_process (trace st) = [])).
Proof.
  split; [reflexivity|]. split; [reflexivity|].
  intros (fuel & st & Hrun & Hnone).
  destruct fuel as [|fuel]; [discriminate|].
  vm_compute in Hrun. injection Hrun as <-.
  destruct Hnone as [Hnone | Hnone]; discriminate.
Qed.

Lemma no_files_one_iteration_witness :
  exists st,
    convergence_loop nat 5 (Scenario.shelf_count 0) (Scenario.shelf_process 0)
      1 "C" (start 0%nat) = Some st /\
    iterations st = 1%nat /\
    number_bad_files st = 0 /\
    trace st = [EvCount "C" 0; EvProcess 5 0 "C" 0; EvCount "C" 0].
Proof.
  apply (no_files_one_iteration nat 5 (Scenario.shelf_count 0) (Scenario.shelf_process 0)
           "C" 0%nat 0%nat ErrorHandler_new 1).
  - reflexivity.
  - reflexivity.
  - reflexivity.
  - lia.
Defined.

(** C8, as stated, fails: two bad files fill the collector, the mail server
    is down, and what [email_bundled_error] raises comes out of the task. *)
Lemma mail_failure_escapes :
  exists st,
    celery_process_file_chunks nat 5 (Scenario.shelf_count 2) (Scenario.shelf_process 2)
      Scenario.mail_down 2 "B" 0%nat
    = Some (Raise (ExternalError "mail server unreachable"), st) /\
    errors (error_handler st) = ["unreadable file"; "unreadable file"].
Proof.
  eexists. split; reflexivity.
Qed.

Lemma errors_reported_once_witness :
  exists st0,
    convergence_loop nat 5 (Scenario.shelf_count 2) (Scenario.shelf_process 2)
      2 "B" (start 0%nat) = Some st0 /\
    filter is_email (trace st0) = [] /\
    errors (error_handler st0) = ["unreadable file"; "unreadable file"].
Proof.
  destruct (errors_reported_once nat 5 (Scenario.shelf_count 2) (Scenario.shelf_process 2)
              Scenario.mail_up 2 "B" 0%nat _ _ eq_refl) as (st0 & Hrun & Hnone & _).
  exists st0. split; [exact Hrun|]. split; [exact Hnone|].
  vm_compute in Hrun. injection Hrun as <-. reflexivity.
Defined.

End WorkerSpec.

(** ** The orchestrator: properties of [create_file_processing_tasks] *)

Module OrchestratorSpec.

Import Orchestrator.

(** C5 fails in the last hour of the day: the hour field is raised by one
    without a carry, the constructor refuses hour 24, and the run stops with
    the lock taken and nothing queued. *)
Lemma deadline_fails_at_23 :
  create_file_processing_tasks Scenario.late_evening (Ok ["A"; "B"])
    Scenario.broker_up (Scenario.always "SUCCESS") 1 Scenario.idle
  = Some (Raise (ValueError "hour must be in 0..23"),
          {| locked := true; clock := 0; trace := [EvLock] |}).
Proof. reflexivity. Qed.

(** Before 23:00 the deadline is the start of the next hour of the same day. *)
Lemma deadline_before_23 (now : DateTime) :
  valid_datetime now = true ->
  hour now < 23 ->
  datetime (year now) (month now) (day now) (hour now + 1) =
  Ok {| year := year now; month := month now; day := day now;
        hour := hour now + 1; minute := 0; second := 0; microsecond := 0 |}.
Proof.
  unfold valid_datetime, valid_date, datetime. intros Hvalid Hhour.
  repeat (apply andb_prop in Hvalid as [Hvalid ?]).
  rewrite Hvalid.
  repeat match goal with H : (_ <=? _) = true |- _ =>
    first [rewrite H | apply Z.leb_le in H] end.
  simpl.
  replace (0 <=? hour now + 1) with true by (symmetry; apply Z.leb_le; lia).
  replace (hour now + 1 <=? 23) with true by (symmetry; apply Z.leb_le; lia).
  reflexivity.
Qed.

(** That deadline is later than [now], by an hour at most. *)
Lemma deadline_is_next_boundary (now expiry : DateTime) :
  valid_datetime now = true ->
  datetime (year now) (month now) (day now) (hour now + 1) = Ok expiry ->
  (year expiry, month expiry, day expiry) = (year now, month now, day now) /\
  second_of_day expiry mod 3600 = 0 /\
  second_of_day now < second_of_day expiry <= second_of_day now + 3600.
Proof.
  unfold valid_datetime, datetime. intros Hvalid Hdt.
  repeat (apply andb_prop in Hvalid as [Hvalid ?]).
  repeat match goal with H : (_ <=? _) = true |- _ => apply Z.leb_le in H end.
  repeat match type of Hdt with
         | (if ?b then _ else _) = _ => destruct b; [discriminate|]
         end.
  injection Hdt as <-. unfold second_of_day. simpl.
  split; [reflexivity|]. split; [|lia].
  rewrite !Z.add_0_r. replace ((hour now + 1) * 3600) with (0 + (hour now + 1) * 3600) by lia.
  apply Z.mod_add. lia.
Qed.

Section Facts.

Variable future_state : Future -> nat -> string.

Local Abbreviation check := (check_future future_state).
Local Abbreviation pass := (poll_pass future_state).
Local Abbreviation polling := (poll future_state).

(** *** One pass over the futures *)

Lemma pass_clock_fold (running : list Future) (p : Pass) :
  pass_clock (fold_left check running p) =
  (pass_clock p + 3 * List.length running)%nat.
Proof.
  revert p. induction running as [|f running IH]; intros p; simpl.
  - lia.
  - rewrite IH. simpl. lia.
Qed.

Lemma pass_reads_fold (running : list Future) (p : Pass) :
  map read_future (pass_events (fold_left check running p)) =
  map read_future (pass_events p) ++
  flat_map (fun f => [Some f; Some f; Some f]) running.
Proof.
  revert p. induction running as [|f running IH]; intros p; simpl.
  - rewrite app_nil_r. reflexivity.
  - rewrite IH. simpl. rewrite map_app, <- app_assoc. reflexivity.
Qed.

(** The events of a pass are reads of states, and each shows what the
    backend answered. *)
Lemma pass_events_fold (P : Event -> Prop) (running : list Future) (p : Pass) :
  (forall f n, P (EvState f (future_state f n))) ->
  Forall P (pass_events p) ->
  Forall P (pass_events (fold_left check running p)).
Proof.
  intros HP. revert p. induction running as [|f running IH]; intros p Hp; simpl.
  - exact Hp.
  - apply IH. simpl. apply Forall_app. split; [exact Hp|].
    repeat constructor; apply HP.
Qed.

(** With the states standing still during the pass, the three lists are the
    futures in state SUCCESS, in state FAILURE and in a state of
    [STARTED_OR_WAITING]. *)
Lemma pass_snapshot_fold (snap : Future -> string) (running : list Future) (p : Pass) :
  (forall f n, In f running ->
     (pass_clock p <= n < pass_clock p + 3 * List.length running)%nat ->
     future_state f n = snap f) ->
  successful (fold_left check running p) =
    successful p ++ filter (fun f => String.eqb (snap f) "SUCCESS") running /\
  failed (fold_left check running p) =
    failed p ++ filter (fun f => String.eqb (snap f) "FAILURE") running /\
  new_running (fold_left check running p) =
    new_running p ++ filter (fun f => str_in (snap f) STARTED_OR_WAITING) running.
Proof.
  revert p. induction running as [|f running IH]; intros p Hsnap.
  - simpl. rewrite !app_nil_r. auto.
  - cbn [fold_left filter].
    assert (H1 : future_state f (pass_clock p) = snap f)
      by (apply Hsnap; [left; reflexivity | simpl; lia]).
    assert (H2 : future_state f (pass_clock p + 1) = snap f)
      by (apply Hsnap; [left; reflexivity | simpl; lia]).
    assert (H3 : future_state f (pass_clock p + 2) = snap f)
      by (apply Hsnap; [left; reflexivity | simpl; lia]).
    destruct (IH (check p f)) as (Hs & Hf & Hn).
    { intros g n Hg Hn. apply Hsnap; [right; exact Hg|].
      simpl in Hn |- *. lia. }
    rewrite Hs, Hf, Hn. unfold check_future. cbn [successful failed new_running].
    rewrite H1, H2, H3.
    destruct (String.eqb (snap f) "SUCCESS");
      destruct (String.eqb (snap f) "FAILURE");
      destruct (str_in (snap f) STARTED_OR_WAITING);
      rewrite <- ?app_assoc; auto.
Qed.

(** A future is put on a list only by a read of this pass that shows the
    state of that list. *)
Lemma pass_members_fold (running : list Future) (p : Pass) (f : Future) :
  let reads n :=
    (pass_clock p <= n < pass_clock p + 3 * List.length running)%nat in
  (In f (successful (fold_left check running p)) ->
     In f (successful p) \/ exists n, reads n /\ future_state f n = "SUCCESS") /\
  (In f (failed (fold_left check running p)) ->
     In f (failed p) \/ exists n, reads n /\ future_state f n = "FAILURE") /\
  (In f (new_running (fold_left check running p)) ->
     In f (new_running p) \/
     exists n, reads n /\ str_in (future_state f n) STARTED_OR_WAITING = true).
Proof.
  revert p. induction running as [|g running IH]; intros p.
  - simpl. auto.
  - cbn [fold_left]. destruct (IH (check p g)) as (Hs & Hf & Hn).
    unfold check_future in Hs, Hf, Hn.
    cbn [successful failed new_running pass_clock] in Hs, Hf, Hn.
    cbv zeta. cbn [List.length].
    split; [|split]; intros Hin.
    + destruct (Hs Hin) as [Hin' | (n & Hn' & Hst)];
        [|right; exists n; split; [lia | exact Hst]].
      destruct (String.eqb (future_state g (pass_clock p)) "SUCCESS") eqn:E; [|auto].
      apply in_app_or in Hin' as [? | [<- | []]]; [auto|].
      right. exists (pass_clock p). split; [lia|]. apply String.eqb_eq. exact E.
    + destruct (Hf Hin) as [Hin' | (n & Hn' & Hst)];
        [|right; exists n; split; [lia | exact Hst]].
      destruct (String.eqb (future_state g (pass_clock p + 1)) "FAILURE") eqn:E; [|auto].
      apply in_app_or in Hin' as [? | [<- | []]]; [auto|].
      right. exists (pass_clock p + 1)%nat. split; [lia|]. apply String.eqb_eq. exact E.
    + destruct (Hn Hin) as [Hin' | (n & Hn' & Hst)];
        [|right; exists n; split; [lia | exact Hst]].
      destruct (str_in (future_state g (pass_clock p + 2)) STARTED_OR_WAITING) eqn:E; [|auto].
      apply in_app_or in Hin' as [? | [<- | []]]; [auto|].
      right. exists (pass_clock p + 2)%nat. split; [lia | exact E].
Qed.

(** Once the units are settled a pass leaves nothing outstanding. *)
Lemma pass_settled_fold (t : nat) (running : list Future) (p : Pass) :
  settled future_state t running ->
  (t <= pass_clock p)%nat ->
  new_running (fold_left check running p) = new_running p.
Proof.
  revert p. induction running as [|f running IH]; intros p Hset Ht; simpl.
  - reflexivity.
  - rewrite IH.
    + unfold check_future. cbn [new_running].
      rewrite (Hset f (pass_clock p + 2)%nat); [reflexivity | left; reflexivity | lia].
    + intros g n Hg Hn. apply Hset; [right; exact Hg | exact Hn].
    + simpl. lia.
Qed.

(** What is outstanding after a pass was outstanding before it. *)
Lemma pass_keeps_fold (running : list Future) (p : Pass) :
  incl (new_running (fold_left check running p)) (new_running p ++ running).
Proof.
  revert p. induction running as [|f running IH]; intros p; simpl.
  - rewrite app_nil_r. apply incl_refl.
  - intros g Hg. apply IH in Hg.
    unfold check_future in Hg. cbn [new_running] in Hg.
    apply in_app_or in Hg as [Hg | Hg].
    + destruct (str_in _ _).
      * apply in_app_or in Hg as [Hg | [<- | []]];
          apply in_or_app; [left | right; left]; auto.
      * apply in_or_app. left. exact Hg.
    + apply in_or_app. right. right. exact Hg.
Qed.

(** *** The polling loop *)

Lemma poll_nil (fuel : nat) (s : Run) : polling fuel [] s = Some s.
Proof. destruct fuel; reflexivity. Qed.

Lemma poll_step (fuel : nat) (f : Future) (running : list Future) (s : Run) :
  polling (S fuel) (f :: running) s =
  polling fuel (new_running (pass (f :: running) (clock s)))
    {| locked := locked s;
       clock := pass_clock (pass (f :: running) (clock s));
       trace := trace s ++ pass_events (pass (f :: running) (clock s)) ++ [EvSleep 5] |}.
Proof. reflexivity. Qed.

(** Polling leaves the lock alone; it only reads states and sleeps. *)
Lemma poll_events (P : Event -> Prop) (fuel : nat) (running : list Future)
    (s s' : Run) :
  (forall f n, P (EvState f (future_state f n))) ->
  P (EvSleep 5) ->
  polling fuel running s = Some s' ->
  locked s' = locked s /\
  exists evs, trace s' = trace s ++ evs /\ Forall P evs.
Proof.
  intros Hread Hsleep. revert running s.
  induction fuel as [|fuel IH]; intros running s Hrun.
  - destruct running; [|discriminate]. injection Hrun as <-.
    split; [reflexivity|]. exists []. rewrite app_nil_r. auto.
  - destruct running as [|f running].
    + injection Hrun as <-.
      split; [reflexivity|]. exists []. rewrite app_nil_r. auto.
    + rewrite poll_step in Hrun. apply IH in Hrun as (Hlock & evs & Htr & Hevs).
      simpl in Hlock, Htr. split; [exact Hlock|].
      eexists. split; [rewrite Htr, <- !app_assoc; reflexivity|].
      apply Forall_app. split; [|apply Forall_app; split]; auto.
      apply pass_events_fold; [exact Hread | constructor].
Qed.

(** When the units leave the states of [STARTED_OR_WAITING] for good, the
    polling loop ends. *)
Lemma poll_terminates (t fuel : nat) (running : list Future) (s : Run) :
  settled future_state t running ->
  (t - clock s < fuel)%nat ->
  exists s', polling fuel running s = Some s'.
Proof.
  revert running s. induction fuel as [|fuel IH]; intros running s Hset Hfuel; [lia|].
  destruct running as [|f running]; [eexists; reflexivity|].
  rewrite poll_step. unfold poll_pass.
  destruct (Nat.le_gt_cases t (clock s)) as [Hle | Hgt].
  - rewrite (pass_settled_fold t); [|exact Hset | exact Hle].
    simpl. rewrite poll_nil. eexists. reflexivity.
  - apply IH.
    + intros g n Hg Hn. apply Hset; [|exact Hn].
      apply pass_keeps_fold in Hg. exact Hg.
    + cbn [clock]. rewrite pass_clock_fold. simpl. lia.
Qed.

(** A non-empty round of polling ends with a sleep, whatever is left. *)
Lemma poll_ends_asleep (fuel : nat) (f : Future) (running : list Future) (s s' : Run) :
  polling fuel (f :: running) s = Some s' ->
  exists evs, trace s' = trace s ++ evs ++ [EvSleep 5].
Proof.
  revert f running s. induction fuel as [|fuel IH]; intros f running s Hrun;
    [discriminate|].
  rewrite poll_step in Hrun.
  destruct (new_running (pass (f :: running) (clock s))) as [|g rest] eqn:Hnew.
  - rewrite poll_nil in Hrun. injection Hrun as <-. simpl.
    eexists. reflexivity.
  - apply IH in Hrun as (evs & Htr). simpl in Htr.
    exists (pass_events (pass (f :: running) (clock s)) ++ [EvSleep 5] ++ evs).
    rewrite Htr, <- !app_assoc. reflexivity.
Qed.

Lemma known_state_false (st : string) :
  known_state st = false ->
  String.eqb st "SUCCESS" = false /\
  String.eqb st "FAILURE" = false /\
  str_in st STARTED_OR_WAITING = false.
Proof.
  unfold known_state, str_in. cbn [existsb STARTED_OR_WAITING].
  intros H. repeat (apply orb_false_elim in H as [? H]).
  repeat split; auto.
  apply orb_false_intro; [assumption|].
  apply orb_false_intro; [assumption | reflexivity].
Qed.

(** A future that shows none of the four strings during a pass goes to none
    of the three lists. *)
Lemma unknown_in_no_list (running : list Future) (t : nat) (f : Future) :
  (forall n, (t <= n < t + 3 * List.length running)%nat ->
     known_state (future_state f n) = false) ->
  ~ In f (successful (pass running t)) /\
  ~ In f (failed (pass running t)) /\
  ~ In f (new_running (pass running t)).
Proof.
  intros Hunknown. unfold poll_pass.
  destruct (pass_members_fold running (empty_pass t) f) as (Hs & Hf & Hn).
  cbn [empty_pass pass_clock successful failed new_running] in Hs, Hf, Hn.
  split; [|split]; intros Hin.
  - destruct (Hs Hin) as [[] | (n & Hn' & Hst)].
    destruct (known_state_false _ (Hunknown n Hn')) as (H1 & _ & _).
    rewrite Hst in H1. discriminate.
  - destruct (Hf Hin) as [[] | (n & Hn' & Hst)].
    destruct (known_state_false _ (Hunknown n Hn')) as (_ & H2 & _).
    rewrite Hst in H2. discriminate.
  - destruct (Hn Hin) as [[] | (n & Hn' & Hst)].
    destruct (known_state_false _ (Hunknown n Hn')) as (_ & _ & H3).
    rewrite Hst in H3. discriminate.
Qed.

(** C9, amended: a pass evaluates the state of every outstanding future
    three times, once for each test; with the states standing still during
    the pass, the futures in state SUCCESS, in state FAILURE and in a state
    of [STARTED_OR_WAITING] make the three lists; the futures of the third
    list are the outstanding ones of the next pass; the orchestrator sleeps 5
    seconds after every pass, so also after the one that leaves nothing
    outstanding; with nothing outstanding the loop is over. *)
Theorem polling_pass_rule (fuel : nat) (running : list Future) (s : Run)
    (snap : Future -> string) :
  let p := pass running (clock s) in
  map read_future (pass_events p) =
    flat_map (fun f => [Some f; Some f; Some f]) running /\
  ((forall f n, In f running ->
      (clock s <= n < clock s + 3 * List.length running)%nat ->
      future_state f n = snap f) ->
   successful p = filter (fun f => String.eqb (snap f) "SUCCESS") running /\
   failed p = filter (fun f => String.eqb (snap f) "FAILURE") running /\
   new_running p = filter (fun f => str_in (snap f) STARTED_OR_WAITING) running) /\
  (running <> [] ->
   polling (S fuel) running s =
   polling fuel (new_running p)
     {| locked := locked s;
        clock := pass_clock p;
        trace := trace s ++ pass_events p ++ [EvSleep 5] |}) /\
  (running <> [] ->
   forall s', polling fuel running s = Some s' ->
     exists evs, trace s' = trace s ++ evs ++ [EvSleep 5]) /\
  (running = [] -> polling fuel running s = Some s).
Proof.
  cbv zeta. split; [|split; [|split; [|split]]].
  - unfold poll_pass. rewrite pass_reads_fold. reflexivity.
  - intros Hsnap. unfold poll_pass.
    destruct (pass_snapshot_fold snap running (empty_pass (clock s))) as (Hs & Hf & Hn).
    { exact Hsnap. }
    rewrite Hs, Hf, Hn. auto.
  - intros Hne. destruct running as [|f running]; [contradiction|].
    apply poll_step.
  - intros Hne s' Hrun. destruct running as [|f running]; [contradiction|].
    eapply poll_ends_asleep. exact Hrun.
  - intros ->. apply poll_nil.
Qed.

Section Dispatch.

Variable queue_user_delay : nat -> UserId -> Z -> DateTime -> Result Future.

Local Abbreviation queue := (queue_all queue_user_delay).

(** Queueing leaves the lock and the clock alone; it makes one call of
    [delay] per user, each with no retry and with the deadline of the run. *)
Lemma queue_events (user_ids : list UserId) (expiry : DateTime)
    (running : list Future) (s : Run) :
  let r := queue user_ids expiry running s in
  locked (snd r) = locked s /\
  clock (snd r) = clock s /\
  exists evs,
    trace (snd r) = trace s ++ evs /\
    Forall (fun ev => exists u, ev = EvDelay u 0 expiry) evs /\
    (forall fs, fst r = Ok fs -> evs = map (fun u => EvDelay u 0 expiry) user_ids).
Proof.
  cbv zeta. revert running s.
  induction user_ids as [|u user_ids IH]; intros running s.
  - simpl. repeat split. exists []. rewrite app_nil_r. repeat split; auto.
  - cbn [queue_all].
    destruct (queue_user_delay (List.length running) u 0 expiry) as [f|e].
    + destruct (IH (running ++ [f]) (log [EvDelay u 0 expiry] s))
        as (Hl & Hc & evs & Htr & Hevs & Hall).
      split; [exact Hl|]. split; [exact Hc|].
      exists (EvDelay u 0 expiry :: evs). split; [|split].
      * rewrite Htr. simpl. rewrite <- app_assoc. reflexivity.
      * constructor; [exists u; reflexivity | exact Hevs].
      * intros fs Hfs. simpl. f_equal. apply (Hall fs Hfs).
    + simpl. repeat split. exists [EvDelay u 0 expiry].
      repeat split; [repeat constructor; exists u; reflexivity | discriminate].
Qed.

Lemma queue_accepts (user_ids : list UserId) (expiry : DateTime)
    (running : list Future) (s : Run) :
  (forall n u, exists f, queue_user_delay n u 0 expiry = Ok f) ->
  exists fs, fst (queue user_ids expiry running s) = Ok fs.
Proof.
  intros Hup. revert running s.
  induction user_ids as [|u user_ids IH]; intros running s.
  - exists running. reflexivity.
  - cbn [queue_all]. destruct (Hup (List.length running) u) as (f & ->). apply IH.
Qed.

End Dispatch.

Lemma no_unlock_filter (evs : list Event) :
  Forall (fun ev => is_unlock ev = false) evs -> filter is_unlock evs = [].
Proof.
  induction 1 as [|ev evs Hev _ IH]; simpl; [reflexivity|].
  rewrite Hev. exact IH.
Qed.

Lemma delays_counted (expiry : DateTime) (l : list UserId) :
  List.length (filter is_delay (map (fun u => EvDelay u 0 expiry) l)) = List.length l.
Proof.
  induction l as [|u l IH]; simpl; [reflexivity | f_equal; exact IH].
Qed.

Lemma no_delay_filter (evs : list Event) :
  Forall (fun ev => is_delay ev = false) evs -> filter is_delay evs = [].
Proof.
  induction 1 as [|ev evs Hev _ IH]; simpl; [reflexivity|].
  rewrite Hev. exact IH.
Qed.

Section Whole.

Variable now : DateTime.
Variable FilesToProcess_user_ids : Result (list UserId).
Variable queue_user_delay : nat -> UserId -> Z -> DateTime -> Result Future.

Local Abbreviation run :=
  (create_file_processing_tasks now FilesToProcess_user_ids queue_user_delay
     future_state).

(** C3: called while the lock is held, the run raises
    [ProcessingOverlapError] at once, and the state it leaves is the state it
    found: the lock is still held and it was not touched, and nothing was
    queued. *)
Theorem overlap_is_fatal (fuel : nat) (s : Run) :
  FileProcessLock_islocked s = true ->
  exists msg,
    run fuel s = Some (Raise (ProcessingOverlapError msg), s) /\
    locked s = true.
Proof.
  intros Hheld. unfold create_file_processing_tasks. rewrite Hheld.
  eexists. split; [reflexivity | exact Hheld].
Qed.

(** A run that gets the lock and ends without an exception went through the
    deadline, the enumeration, the queueing and the polling. *)
Lemma run_ok_inv (fuel : nat) (s s' : Run) :
  locked s = false ->
  run fuel s = Some (Ok tt, s') ->
  exists expiry ids running s2 s3,
    datetime (year now) (month now) (day now) (hour now + 1) = Ok expiry /\
    FilesToProcess_user_ids = Ok ids /\
    queue_all queue_user_delay (set ids) expiry [] (FileProcessLock_lock s)
      = (Ok running, s2) /\
    poll future_state fuel running s2 = Some s3 /\
    s' = FileProcessLock_unlock s3.
Proof.
  intros Hfree. unfold create_file_processing_tasks, FileProcessLock_islocked.
  rewrite Hfree.
  destruct (datetime (year now) (month now) (day now) (hour now + 1))
    as [expiry|e]; [|discriminate].
  destruct FilesToProcess_user_ids as [ids|e]; [|discriminate].
  destruct (queue_all queue_user_delay (set ids) expiry [] (FileProcessLock_lock s))
    as [[running|e] s2] eqn:Hq; [|discriminate].
  destruct (poll future_state fuel running s2) as [s3|] eqn:Hp; [|discriminate].
  intros Hrun. injection Hrun as <-.
  exists expiry, ids, running, s2, s3. auto.
Qed.

(** The end of a run that raised nothing: the lock is free, and the trace
    shows one release, the last event. *)
Lemma run_ok_trace (fuel : nat) (s s' : Run) :
  locked s = false ->
  run fuel s = Some (Ok tt, s') ->
  locked s' = false /\
  exists mid,
    trace s' = trace s ++ [EvLock] ++ mid ++ [EvUnlock] /\
    filter is_unlock mid = [].
Proof.
  intros Hfree Hrun.
  destruct (run_ok_inv fuel s s' Hfree Hrun)
    as (expiry & ids & running & s2 & s3 & _ & _ & Hq & Hp & ->).
  split; [reflexivity|].
  pose proof (queue_events queue_user_delay (set ids) expiry []
                (FileProcessLock_lock s)) as Hqe.
  cbv zeta in Hqe. rewrite Hq in Hqe. cbn [fst snd] in Hqe.
  destruct Hqe as (_ & _ & evq & Htq & Hevq & _).
  destruct (poll_events (fun ev => is_unlock ev = false) fuel running s2 s3)
    as (_ & evp & Htp & Hevp); auto.
  exists (evq ++ evp). split.
  - simpl. rewrite Htp, Htq. simpl. rewrite <- !app_assoc. reflexivity.
  - rewrite filter_app, (no_unlock_filter evp Hevp), app_nil_r.
    apply no_unlock_filter.
    eapply Forall_impl; [|exact Hevq]. intros ev (u & ->). reflexivity.
Qed.

(** A run comes to its end when nothing raises and the units settle. *)
Lemma run_completes (fuel : nat) (s : Run) (ids : list UserId) (t : nat) :
  locked s = false ->
  valid_datetime now = true ->
  hour now < 23 ->
  FilesToProcess_user_ids = Ok ids ->
  (forall n u e, exists f, queue_user_delay n u 0 e = Ok f) ->
  (forall running, settled future_state t running) ->
  (t < fuel)%nat ->
  exists s', run fuel s = Some (Ok tt, s').
Proof.
  intros Hfree Hvalid Hhour Hids Hup Hset Hfuel.
  unfold create_file_processing_tasks, FileProcessLock_islocked.
  rewrite Hfree, (deadline_before_23 now Hvalid Hhour), Hids.
  match goal with |- context [queue_all _ ?l ?e ?r ?s1] =>
    destruct (queue_accepts queue_user_delay l e r s1 (fun n u => Hup n u e))
      as (running & Hq);
    pose proof (queue_events queue_user_delay l e r s1) as Hqe;
    destruct (queue_all queue_user_delay l e r s1) as [res s2] end.
  cbn [fst snd] in Hq, Hqe. subst res.
  destruct Hqe as (_ & Hclock & _).
  destruct (poll_terminates t fuel running s2 (Hset running)) as (s3 & ->); [lia|].
  eexists. reflexivity.
Qed.

(** C4, amended: a run that takes the lock and comes to its end without an
    exception releases the lock exactly once, as its last step, whatever the
    final states of the units; and a run does come to that end when the
    deadline, the enumeration and the queueing raise nothing and the units
    leave the states of [STARTED_OR_WAITING]. *)
Theorem lock_released_once (fuel : nat) (s : Run) :
  locked s = false ->
  (forall s', run fuel s = Some (Ok tt, s') ->
     locked s' = false /\
     exists mid,
       trace s' = trace s ++ [EvLock] ++ mid ++ [EvUnlock] /\
       filter is_unlock mid = []) /\
  (forall ids t,
     valid_datetime now = true ->
     hour now < 23 ->
     FilesToProcess_user_ids = Ok ids ->
     (forall n u e, exists f, queue_user_delay n u 0 e = Ok f) ->
     (forall running, settled future_state t running) ->
     (t < fuel)%nat ->
     exists s', run fuel s = Some (Ok tt, s')).
Proof.
  intros Hfree. split.
  - intros s' Hrun. apply (run_ok_trace fuel s s' Hfree Hrun).
  - intros ids t. apply (run_completes fuel s ids t Hfree).
Qed.

(** C10: a future that shows none of the four strings during a pass goes to
    none of the three lists, so it is not outstanding after the pass; and
    when no unit ever shows one of the four strings, the run queues the
    units, polls once and releases the lock without having seen any unit in
    state SUCCESS or FAILURE. *)
Theorem unknown_state_dropped :
  (forall running t f,
     (forall n, (t <= n < t + 3 * List.length running)%nat ->
        known_state (future_state f n) = false) ->
     ~ In f (successful (pass running t)) /\
     ~ In f (failed (pass running t)) /\
     ~ In f (new_running (pass running t))) /\
  (forall s ids,
     (forall f n, known_state (future_state f n) = false) ->
     locked s = false ->
     valid_datetime now = true ->
     hour now < 23 ->
     FilesToProcess_user_ids = Ok ids ->
     (forall n u e, exists f, queue_user_delay n u 0 e = Ok f) ->
     exists s' evs,
       run 1 s = Some (Ok tt, s') /\
       locked s' = false /\
       trace s' = trace s ++ evs ++ [EvUnlock] /\
       List.length (filter is_delay evs) = List.length (set ids) /\
       Forall (fun ev => observed_terminal ev = false) evs).
Proof.
  split; [exact unknown_in_no_list|].
  intros s ids Hunknown Hfree Hvalid Hhour Hids Hup.
  assert (Hset : forall running, settled future_state 0 running).
  { intros running f n _ _. apply (known_state_false _ (Hunknown f n)). }
  destruct (run_completes 1 s ids 0%nat Hfree Hvalid Hhour Hids Hup Hset)
    as (s' & Hrun); [lia|].
  destruct (run_ok_inv 1 s s' Hfree Hrun)
    as (expiry & ids' & running & s2 & s3 & _ & Hids' & Hq & Hp & ->).
  rewrite Hids in Hids'. injection Hids' as <-.
  pose proof (queue_events queue_user_delay (set ids) expiry []
                (FileProcessLock_lock s)) as Hqe.
  cbv zeta in Hqe. rewrite Hq in Hqe. cbn [fst snd] in Hqe.
  destruct Hqe as (_ & _ & evq & Htq & _ & Hall).
  specialize (Hall running eq_refl). subst evq.
  destruct (poll_events
              (fun ev => observed_terminal ev = false /\ is_delay ev = false)
              1 running s2 s3) as (_ & evp & Htp & Hevp); auto.
  { intros f n. split; [|reflexivity]. simpl.
    destruct (known_state_false _ (Hunknown f n)) as (-> & -> & _). reflexivity. }
  exists (FileProcessLock_unlock s3),
         (EvLock :: map (fun u => EvDelay u 0 expiry) (set ids) ++ evp).
  split; [exact Hrun|]. split; [reflexivity|]. split; [|split].
  - simpl. rewrite Htp, Htq. simpl. rewrite <- !app_assoc. reflexivity.
  - cbn [filter is_delay]. rewrite filter_app, length_app, delays_counted.
    rewrite (no_delay_filter evp); [simpl; lia|].
    eapply Forall_impl; [|exact Hevp]. intros ev [_ Hev]. exact Hev.
  - constructor; [reflexivity|]. apply Forall_app. split.
    + apply Forall_forall. intros ev Hev. apply in_map_iff in Hev as (u & <- & _).
      reflexivity.
    + eapply Forall_impl; [|exact Hevp]. intros ev [Hev _]. exact Hev.
Qed.

End Whole.

End Facts.


Lemma overlap_is_fatal_witness :
  exists msg,
    create_file_processing_tasks Scenario.afternoon (Ok ["A"; "B"])
      Scenario.broker_up (Scenario.always "SUCCESS") 3 Scenario.busy
    = Some (Raise (ProcessingOverlapError msg), Scenario.busy) /\
    locked Scenario.busy = true.
Proof.
  apply (overlap_is_fatal (Scenario.always "SUCCESS") Scenario.afternoon
           (Ok ["A"; "B"]) Scenario.broker_up 3 Scenario.busy).
  reflexivity.
Defined.

(** C4, as stated, fails: there is no [try ... finally] around the body of
    the run.  When the query of the users raises, and also when the deadline
    cannot be built, the exception leaves the function with the lock held
    and no release in the trace. *)
Lemma lock_left_held_on_error :
  (exists s',
     create_file_processing_tasks Scenario.afternoon
       (Raise (ExternalError "database unreachable"))
       Scenario.broker_up (Scenario.always "SUCCESS") 3 Scenario.idle
     = Some (Raise (ExternalError "database unreachable"), s') /\
     locked s' = true /\ filter is_unlock (trace s') = []) /\
  (exists e s',
     create_file_processing_tasks Scenario.late_evening (Ok ["A"; "B"])
       Scenario.broker_up (Scenario.always "SUCCESS") 3 Scenario.idle
     = Some (Raise e, s') /\
     locked s' = true /\ filter is_unlock (trace s') = []).
Proof.
  split.
  - eexists. repeat split.
  - eexists _, _. repeat split.
Qed.

Lemma a_settles (running : list Future) :
  settled (Scenario.a_succeeds_after 4) 4 running.
Proof.
  intros f n _ Hn. unfold Scenario.a_succeeds_after.
  destruct (String.eqb (task_user f) "A"); [|reflexivity].
  destruct (Nat.ltb_spec n 4); [lia | reflexivity].
Qed.

Lemma lock_released_once_witness :
  exists s',
    create_file_processing_tasks Scenario.afternoon (Ok ["A"; "B"; "A"])
      Scenario.broker_up (Scenario.a_succeeds_after 4) 5 Scenario.idle
    = Some (Ok tt, s') /\
    locked s' = false /\
    exists mid,
      trace s' = [EvLock] ++ mid ++ [EvUnlock] /\ filter is_unlock mid = [].
Proof.
  destruct (lock_released_once (Scenario.a_succeeds_after 4) Scenario.afternoon
              (Ok ["A"; "B"; "A"]) Scenario.broker_up 5 Scenario.idle eq_refl)
    as (Hend & Hruns).
  destruct (Hruns ["A"; "B"; "A"] 4%nat) as (s' & Hrun).
  - reflexivity.
  - reflexivity.
  - reflexivity.
  - intros n u e. eexists. reflexivity.
  - exact a_settles.
  - lia.
  - exists s'. split; [exact Hrun|]. apply (Hend s' Hrun).
Defined.

(** C9, as stated, fails on two counts: with one future already in state
    SUCCESS, the pass evaluates its state three times, not once, and the
    orchestrator sleeps 5 seconds although no future is left outstanding. *)
Lemma poll_reads_thrice_and_sleeps_when_done :
  let f := {| task_id := 0; task_user := "A" |} in
  new_running (poll_pass (Scenario.always "SUCCESS") [f] 0) = [] /\
  poll (Scenario.always "SUCCESS") 1 [f] Scenario.idle =
  Some {| locked := false; clock := 3;
          trace := [EvState f "SUCCESS"; EvState f "SUCCESS"; EvState f "SUCCESS";
                    EvSleep 5] |}.
Proof. split; reflexivity. Qed.

Lemma polling_pass_rule_witness :
  let a := {| task_id := 0; task_user := "A" |} in
  let b := {| task_id := 1; task_user := "B" |} in
  let p := poll_pass (Scenario.a_succeeds_after 100) [a; b] 0 in
  successful p = [] /\ failed p = [b] /\ new_running p = [a].
Proof.
  cbv zeta.
  destruct (polling_pass_rule (Scenario.a_succeeds_after 100) 3
              [{| task_id := 0; task_user := "A" |};
               {| task_id := 1; task_user := "B" |}]
              Scenario.idle
              (fun f => Scenario.a_succeeds_after 100 f 0))
    as (_ & Hsnap & _).
  apply Hsnap.
  intros f n Hf Hn. unfold Scenario.a_succeeds_after.
  destruct (String.eqb (task_user f) "A"); [|reflexivity].
  destruct (Nat.ltb_spec n 100) as [_ | Hge]; [reflexivity|].
  simpl in Hn. lia.
Defined.

Lemma unknown_state_dropped_witness :
  exists s' evs,
    create_file_processing_tasks Scenario.afternoon (Ok ["A"])
      Scenario.broker_up (Scenario.always "PENDING") 1 Scenario.idle
    = Some (Ok tt, s') /\
    locked s' = false /\
    trace s' = trace Scenario.idle ++ evs ++ [EvUnlock] /\
    List.length (filter is_delay evs) = List.length (set ["A"]) /\
    Forall (fun ev => observed_terminal ev = false) evs.
Proof.
  destruct (unknown_state_dropped (Scenario.always "PENDING") Scenario.afternoon
              (Ok ["A"]) Scenario.broker_up) as (_ & Hrun).
  apply (Hrun Scenario.idle ["A"]).
  - reflexivity.
  - reflexivity.
  - reflexivity.
  - reflexivity.
  - reflexivity.
  - intros n u e. eexists. reflexivity.
Defined.

End OrchestratorSpec.

(** ** More on the worker *)

Module WorkerExtra.

Import Worker.

Section Facts.

Variable World : Type.
Variable FILE_PROCESS_PAGE_SIZE : Z.
Variable FilesToProcess_count : UserId -> World -> Z.
Variable do_process_user_file_chunks :
  Z -> ErrorHandler -> Z -> UserId -> World -> Z * ErrorHandler * World.

Local Abbreviation body :=
  (loop_body World FILE_PROCESS_PAGE_SIZE FilesToProcess_count
     do_process_user_file_chunks).
Local Abbreviation loop :=
  (convergence_loop World FILE_PROCESS_PAGE_SIZE FilesToProcess_count
     do_process_user_file_chunks).
Local Abbreviation process := (do_process_user_file_chunks FILE_PROCESS_PAGE_SIZE).
Local Abbreviation count := FilesToProcess_count.
Local Abbreviation unfold_body :=
  (WorkerSpec.body_unfold World FILE_PROCESS_PAGE_SIZE FilesToProcess_count
     do_process_user_file_chunks).
Local Abbreviation step :=
  (WorkerSpec.loop_step World FILE_PROCESS_PAGE_SIZE FilesToProcess_count
     do_process_user_file_chunks).

(** X1: the loop has no bound of its own on the number of passes.  While
    every call of the processor changes the number of pending files or
    reports a bad file, no pass reaches [break]: the loop never ends, and the
    task never gets to its report. *)
Theorem loop_never_ends_while_changing (user_id : UserId)
    (email_bundled_error : Exn -> string -> World -> Result unit * World) :
  (forall eh skip w,
      count user_id (snd (process eh skip user_id w)) <> count user_id w \/
      fst (fst (process eh skip user_id w)) <> 0) ->
  (forall fuel st, loop fuel user_id st = None) /\
  (forall fuel w,
      Tasks.queue_user World FILE_PROCESS_PAGE_SIZE count
        do_process_user_file_chunks email_bundled_error fuel user_id w = None).
Proof.
  intros Hmoves.
  assert (Hloop : forall fuel st, loop fuel user_id st = None).
  { induction fuel as [|fuel IH]; intros st; [reflexivity|].
    rewrite step.
    destruct (unfold_body user_id st) as (d & eh & w & Hp & ->). cbn [fst snd].
    specialize (Hmoves (error_handler st) (number_bad_files st) (world st)).
    rewrite Hp in Hmoves. cbn [fst snd] in Hmoves.
    replace ((count user_id (world st) =? count user_id w) &&
             (number_bad_files st =? number_bad_files st + d)) with false.
    - apply IH.
    - symmetry. apply andb_false_iff.
      destruct Hmoves as [Hc | Hd]; [left | right]; apply Z.eqb_neq; lia. }
  split; [exact Hloop|].
  intros fuel w. unfold Tasks.queue_user, celery_process_file_chunks.
  rewrite Hloop. reflexivity.
Qed.

(** X2: the loop hands the error handler it got back from one call to the
    next call and never resets it: when the processor only adds errors, the
    errors held at the end of the loop begin with the errors held at any
    earlier point. *)
Theorem errors_only_accumulate (fuel : nat) (user_id : UserId) (st st' : Loop World) :
  (forall eh skip w, exists new,
      errors (snd (fst (process eh skip user_id w))) = errors eh ++ new) ->
  loop fuel user_id st = Some st' ->
  exists new, errors (error_handler st') = errors (error_handler st) ++ new.
Proof.
  intros Hadds. revert st.
  induction fuel as [|fuel IH]; intros st Hrun; [discriminate|].
  rewrite step in Hrun.
  destruct (unfold_body user_id st) as (d & eh & w & Hp & Hb).
  rewrite Hb in Hrun. cbn [fst snd] in Hrun.
  destruct (Hadds (error_handler st) (number_bad_files st) (world st)) as (new & Hnew).
  rewrite Hp in Hnew. cbn [fst snd] in Hnew.
  destruct ((count user_id (world st) =? count user_id w) &&
            (number_bad_files st =? number_bad_files st + d)).
  - injection Hrun as <-. exists new. exact Hnew.
  - apply IH in Hrun as (more & Hmore). cbn [error_handler] in Hmore.
    exists (new ++ more). rewrite Hmore, Hnew, app_assoc. reflexivity.
Qed.

(** X3: whatever the collaborators answer, the loop only queries and
    processes the files of its own user, always asks the processor for a
    page of [FILE_PROCESS_PAGE_SIZE] files, counts the pending files twice
    per pass, and does nothing else. *)
Theorem loop_touches_one_user (fuel : nat) (user_id : UserId) (st st' : Loop World) :
  loop fuel user_id st = Some st' ->
  exists evs,
    trace st' = trace st ++ evs /\
    Forall (Tasks.about user_id FILE_PROCESS_PAGE_SIZE) evs /\
    iterations st' = (iterations st + List.length (filter is_process evs))%nat /\
    List.length (filter Tasks.is_count evs) =
    (2 * List.length (filter is_process evs))%nat.
Proof.
  revert st. induction fuel as [|fuel IH]; intros st Hrun; [discriminate|].
  rewrite step in Hrun.
  destruct (unfold_body user_id st) as (d & eh & w & _ & Hb).
  rewrite Hb in Hrun. cbn [fst snd] in Hrun.
  set (evs0 := [EvCount user_id (count user_id (world st));
                EvProcess FILE_PROCESS_PAGE_SIZE (number_bad_files st) user_id d;
                EvCount user_id (count user_id w)]) in *.
  assert (Habout : Forall (Tasks.about user_id FILE_PROCESS_PAGE_SIZE) evs0)
    by (repeat constructor).
  destruct ((count user_id (world st) =? count user_id w) &&
            (number_bad_files st =? number_bad_files st + d)).
  - injection Hrun as <-. exists evs0. cbn [trace iterations].
    repeat split; [exact Habout | simpl; lia].
  - apply IH in Hrun as (evs & Htr & Hevs & Hit & Hcounts).
    cbn [trace iterations] in Htr, Hit.
    exists (evs0 ++ evs). rewrite Htr, <- app_assoc.
    split; [reflexivity|]. split; [apply Forall_app; split; assumption|].
    rewrite !filter_app, !length_app. simpl. lia.
Qed.

End Facts.

Lemma loop_never_ends_while_changing_witness :
  Tasks.queue_user nat 5 Tasks.refill_count Tasks.refill_process
    Scenario.mail_up 50 "A" 3%nat = None.
Proof.
  apply (loop_never_ends_while_changing nat 5 Tasks.refill_count Tasks.refill_process
           "A" Scenario.mail_up).
  intros eh skip w. left. unfold Tasks.refill_count, Tasks.refill_process. simpl. lia.
Defined.

Lemma errors_only_accumulate_witness :
  exists st' new,
    convergence_loop nat 5 (Scenario.shelf_count 2) (Scenario.shelf_process 2)
      2 "B" (start 0%nat) = Some st' /\
    errors (error_handler st') = [] ++ new.
Proof.
  eexists.
  refine ((fun H => match H with ex_intro _ new Hnew => ex_intro _ new (conj eq_refl Hnew) end)
            (errors_only_accumulate nat 5 (Scenario.shelf_count 2)
               (Scenario.shelf_process 2) 2 "B" (start 0%nat) _ _ eq_refl)).
  intros eh skip w. eexists. reflexivity.
Defined.

Lemma loop_touches_one_user_witness :
  exists st' evs,
    convergence_loop nat 5 (Scenario.shelf_count 2) (Scenario.shelf_process 2)
      4 "A" (start 10%nat) = Some st' /\
    trace st' = [] ++ evs /\
    Forall (Tasks.about "A" 5) evs /\
    iterations st' = (0 + List.length (filter is_process evs))%nat /\
    List.length (filter Tasks.is_count evs) =
    (2 * List.length (filter is_process evs))%nat.
Proof.
  eexists.
  refine ((fun H => match H with ex_intro _ evs Hevs => ex_intro _ evs (conj eq_refl Hevs) end)
            (loop_touches_one_user nat 5 (Scenario.shelf_count 2)
               (Scenario.shelf_process 2) 4 "A" (start 10%nat) _ eq_refl)).
Defined.

End WorkerExtra.

(** ** More on the orchestrator *)

Module OrchestratorExtra.

Import Orchestrator.

Section Facts.

Variable future_state : Future -> nat -> string.
Variable queue_user_delay : nat -> UserId -> Z -> DateTime -> Result Future.

Local Abbreviation check := (check_future future_state).
Local Abbreviation pass := (poll_pass future_state).
Local Abbreviation polling := (poll future_state).
Local Abbreviation queue := (queue_all queue_user_delay).

(** A future that always shows a state of [STARTED_OR_WAITING] stays
    outstanding through a pass. *)
Lemma pass_keeps_waiting (f : Future) (running : list Future) (p : Pass) :
  (forall n, str_in (future_state f n) STARTED_OR_WAITING = true) ->
  In f running \/ In f (new_running p) ->
  In f (new_running (fold_left check running p)).
Proof.
  intros Hwait. revert p.
  induction running as [|g running IH]; intros p Hin.
  - destruct Hin as [[] | Hin]. exact Hin.
  - cbn [fold_left]. apply IH.
    unfold check_future. cbn [new_running].
    destruct Hin as [[-> | Hin] | Hin].
    + right. rewrite Hwait. apply in_or_app. right. left. reflexivity.
    + left. exact Hin.
    + right. destruct (str_in _ _); [apply in_or_app; left|]; exact Hin.
Qed.

Lemma poll_blocked (f : Future) :
  (forall n, str_in (future_state f n) STARTED_OR_WAITING = true) ->
  forall fuel running s, In f running -> polling fuel running s = None.
Proof.
  intros Hwait. induction fuel as [|fuel IH]; intros running s Hin.
  - destruct running; [contradiction | reflexivity].
  - destruct running as [|g running]; [contradiction|].
    rewrite OrchestratorSpec.poll_step. apply IH.
    unfold poll_pass. apply pass_keeps_waiting; [exact Hwait | left; exact Hin].
Qed.

(** The futures of a pass are futures of [running]. *)
Lemma pass_polls_fold (all running : list Future) (p : Pass) :
  incl running all ->
  Forall (Tasks.polls all) (pass_events p) ->
  Forall (Tasks.polls all) (pass_events (fold_left check running p)).
Proof.
  revert p. induction running as [|f running IH]; intros p Hincl Hp; simpl.
  - exact Hp.
  - apply IH.
    + intros g Hg. apply Hincl. right. exact Hg.
    + simpl. apply Forall_app. split; [exact Hp|].
      assert (In f all) by (apply Hincl; left; reflexivity).
      repeat constructor; assumption.
Qed.

Lemma poll_polls (all : list Future) (fuel : nat) (running : list Future)
    (s s' : Run) :
  incl running all ->
  polling fuel running s = Some s' ->
  locked s' = locked s /\
  exists evs, trace s' = trace s ++ evs /\ Forall (Tasks.polls all) evs.
Proof.
  revert running s. induction fuel as [|fuel IH]; intros running s Hincl Hrun.
  - destruct running; [|discriminate]. injection Hrun as <-.
    split; [reflexivity|]. exists []. rewrite app_nil_r. auto.
  - destruct running as [|f running].
    + injection Hrun as <-.
      split; [reflexivity|]. exists []. rewrite app_nil_r. auto.
    + rewrite OrchestratorSpec.poll_step in Hrun.
      apply IH in Hrun as (Hlock & evs & Htr & Hevs).
      * cbn [locked trace] in Hlock, Htr. split; [exact Hlock|].
        exists ((pass_events (pass (f :: running) (clock s)) ++ [EvSleep 5]) ++ evs).
        split; [rewrite Htr, <- !app_assoc; reflexivity|].
        apply Forall_app. split; [|exact Hevs].
        apply Forall_app. split; [|repeat constructor].
        unfold poll_pass. apply pass_polls_fold; [exact Hincl | constructor].
      * intros g Hg. apply Hincl.
        apply (OrchestratorSpec.pass_keeps_fold future_state) in Hg. exact Hg.
Qed.

(** The futures that queueing returns are the ones the broker gave, one per
    user id and in the order of the user ids. *)
Lemma queue_futures (user_ids : list UserId) (expiry : DateTime)
    (running : list Future) (s : Run) (fs : list Future) :
  fst (queue user_ids expiry running s) = Ok fs ->
  exists new,
    fs = running ++ new /\
    Forall2 (fun u f => exists n, queue_user_delay n u 0 expiry = Ok f) user_ids new.
Proof.
  revert running s. induction user_ids as [|u user_ids IH]; intros running s Hq.
  - simpl in Hq. injection Hq as <-. exists []. rewrite app_nil_r. auto.
  - cbn [queue_all] in Hq.
    destruct (queue_user_delay (List.length running) u 0 expiry) as [f|e] eqn:Hd;
      [|discriminate].
    apply IH in Hq as (new & -> & Hnew).
    exists (f :: new). rewrite <- app_assoc. split; [reflexivity|].
    constructor; [exists (List.length running); exact Hd | exact Hnew].
Qed.


Section Whole.

Variable now : DateTime.

Local Abbreviation run :=
  (fun ids => create_file_processing_tasks now ids queue_user_delay future_state).

(** X4: with no user to serve, a run takes the lock and releases it at
    once: nothing is queued, no state is read and the run does not sleep. *)
Theorem no_users_no_work (fuel : nat) (s : Run) :
  locked s = false ->
  valid_datetime now = true ->
  hour now < 23 ->
  run (Ok []) fuel s =
  Some (Ok tt, {| locked := false; clock := clock s;
                  trace := trace s ++ [EvLock; EvUnlock] |}).
Proof.
  intros Hfree Hvalid Hhour.
  unfold create_file_processing_tasks, FileProcessLock_islocked.
  rewrite Hfree, (OrchestratorSpec.deadline_before_23 now Hvalid Hhour).
  cbn [set nodup queue_all]. rewrite OrchestratorSpec.poll_nil.
  unfold FileProcessLock_unlock, FileProcessLock_lock. cbn [locked clock trace].
  rewrite <- app_assoc. reflexivity.
Qed.


(** X6: the polling loop has no timeout.  When the unit of one user never
    leaves the states of [STARTED_OR_WAITING], the run never returns, so it
    never reaches the release of the lock. *)
Theorem stuck_unit_blocks_forever (l : list UserId) (u : UserId) (s : Run) :
  locked s = false ->
  valid_datetime now = true ->
  hour now < 23 ->
  In u l ->
  (forall n v e, exists f, queue_user_delay n v 0 e = Ok f) ->
  (forall n e f, queue_user_delay n u 0 e = Ok f ->
     forall k, str_in (future_state f k) STARTED_OR_WAITING = true) ->
  forall fuel, run (Ok l) fuel s = None.
Proof.
  intros Hfree Hvalid Hhour Hu Hup Hstuck fuel.
  unfold create_file_processing_tasks, FileProcessLock_islocked.
  rewrite Hfree, (OrchestratorSpec.deadline_before_23 now Hvalid Hhour).
  match goal with |- context [queue_all _ ?ids ?e ?r ?s1] =>
    destruct (OrchestratorSpec.queue_accepts queue_user_delay ids e r s1
                (fun n v => Hup n v e)) as (running & Hq);
    pose proof (queue_futures ids e r s1 running Hq) as (new & Hnew & Hall);
    destruct (queue_all queue_user_delay ids e r s1) as [res s2] end.
  cbn [fst] in Hq. subst res. cbn [app] in Hnew. subst new.
  assert (Hin : exists f, In f running /\
            forall k, str_in (future_state f k) STARTED_OR_WAITING = true).
  { apply (nodup_In string_dec) in Hu. fold (set l) in Hu.
    clear - Hu Hall Hstuck. induction Hall as [|v f vs fs (n & Hd) _ IH].
    - destruct Hu.
    - destruct Hu as [-> | Hu].
      + exists f. split; [left; reflexivity | exact (Hstuck n _ f Hd)].
      + destruct (IH Hu) as (g & Hg & Hw). exists g. split; [right|]; assumption. }
  destruct Hin as (f & Hf & Hwait).
  rewrite (poll_blocked f Hwait fuel running s2 Hf). reflexivity.
Qed.

(** X7: while it polls, a run only reads the states of the futures it was
    given to poll and sleeps five seconds at a time: it reads no other
    future, queues nothing and leaves the lock as it is. *)
Theorem poll_reads_only_outstanding (fuel : nat) (running : list Future)
    (s s' : Run) :
  polling fuel running s = Some s' ->
  locked s' = locked s /\
  exists evs, trace s' = trace s ++ evs /\ Forall (Tasks.polls running) evs.
Proof.
  intros Hrun. apply (poll_polls running fuel running s s'); [apply incl_refl | exact Hrun].
Qed.


End Whole.

End Facts.

Lemma no_users_no_work_witness :
  create_file_processing_tasks Scenario.afternoon (Ok []) Scenario.broker_up
    (Scenario.always "STARTED") 0 Scenario.idle
  = Some (Ok tt, {| locked := false; clock := 0; trace := [] ++ [EvLock; EvUnlock] |}).
Proof.
  apply (no_users_no_work (Scenario.always "STARTED") Scenario.broker_up
           Scenario.afternoon 0 Scenario.idle); reflexivity.
Defined.


Lemma stuck_unit_blocks_forever_witness :
  create_file_processing_tasks Scenario.afternoon (Ok ["A"; "B"])
    Scenario.broker_up (Scenario.always "STARTED") 50 Scenario.idle = None.
Proof.
  apply (stuck_unit_blocks_forever (Scenario.always "STARTED") Scenario.broker_up
           Scenario.afternoon ["A"; "B"] "A" Scenario.idle).
  - reflexivity.
  - reflexivity.
  - reflexivity.
  - left. reflexivity.
  - intros n v e. eexists. reflexivity.
  - intros n e f _ k. reflexivity.
Defined.

Lemma poll_reads_only_outstanding_witness :
  let a := {| task_id := 0; task_user := "A" |} in
  let b := {| task_id := 1; task_user := "B" |} in
  exists s' evs,
    poll (Scenario.a_succeeds_after 4) 5 [a; b] Scenario.idle = Some s' /\
    locked s' = false /\
    trace s' = [] ++ evs /\ Forall (Tasks.polls [a; b]) evs.
Proof.
  cbv zeta. eexists.
  refine ((fun H => match H with
                    | conj Hl (ex_intro _ evs Hevs) =>
                        ex_intro _ evs (conj eq_refl (conj Hl Hevs))
                    end)
            (poll_reads_only_outstanding (Scenario.a_succeeds_after 4) 5
               [{| task_id := 0; task_user := "A" |};
                {| task_id := 1; task_user := "B" |}] Scenario.idle _ eq_refl)).
Defined.


Section Sequel.

Variable future_state : Future -> nat -> string.
Variable queue_user_delay : nat -> UserId -> Z -> DateTime -> Result Future.
Variable now : DateTime.
Variable ids : Result (list UserId).

(** A run that finds the lock free takes it first; the lock is free again
    at its end exactly when it raised nothing. *)
Lemma run_after_lock (fuel : nat) (s s' : Run) (r : Result unit) :
  locked s = false ->
  create_file_processing_tasks now ids queue_user_delay future_state fuel s
    = Some (r, s') ->
  (exists evs, trace s' = trace s ++ EvLock :: evs) /\
  locked s' = match r with Raise _ => true | Ok _ => false end.
Proof.
  intros Hfree Hrun. destruct r as [[]|e].
  - destruct (OrchestratorSpec.run_ok_trace future_state now ids queue_user_delay
                fuel s s' Hfree Hrun) as (Hlock & mid & Htr & _).
    split; [|exact Hlock]. exists (mid ++ [EvUnlock]). exact Htr.
  - unfold create_file_processing_tasks, FileProcessLock_islocked in Hrun.
    rewrite Hfree in Hrun.
    destruct (datetime (year now) (month now) (day now) (hour now + 1))
      as [expiry|e1];
      [|injection Hrun as _ <-; split; [exists []|]; reflexivity].
    destruct ids as [l|e1];
      [|injection Hrun as _ <-; split; [exists []|]; reflexivity].
    pose proof (OrchestratorSpec.queue_events queue_user_delay (set l) expiry []
                  (FileProcessLock_lock s)) as (Hl & _ & evs & Htr & _).
    destruct (queue_all queue_user_delay (set l) expiry [] (FileProcessLock_lock s))
      as [[running|e1] s2].
    + destruct (poll future_state fuel running s2); discriminate.
    + injection Hrun as _ <-. cbn [snd] in Hl, Htr. split; [|exact Hl].
      exists evs. rewrite Htr. cbn [FileProcessLock_lock trace].
      rewrite <- app_assoc. reflexivity.
Qed.

End Sequel.

(** X18: what a run leaves to the next one.  A run that took the lock and
    raised leaves it held: every later run, whatever the time, the users and
    the broker, is refused with [ProcessingOverlapError] and changes
    nothing.  A run that came to its end leaves the lock free, and the next
    run takes it. *)
Theorem failed_run_blocks_next
    (future_state future_state' : Future -> nat -> string)
    (queue_user_delay queue_user_delay' :
       nat -> UserId -> Z -> DateTime -> Result Future)
    (now now' : DateTime) (ids ids' : Result (list UserId))
    (fuel fuel' : nat) (s s' : Run) (r : Result unit) :
  locked s = false ->
  create_file_processing_tasks now ids queue_user_delay future_state fuel s
    = Some (r, s') ->
  match r with
  | Raise _ =>
      exists msg,
        create_file_processing_tasks now' ids' queue_user_delay' future_state' fuel' s'
        = Some (Raise (ProcessingOverlapError msg), s')
  | Ok _ =>
      forall r' s'',
        create_file_processing_tasks now' ids' queue_user_delay' future_state' fuel' s'
        = Some (r', s'') ->
        exists evs, trace s'' = trace s' ++ EvLock :: evs
  end.
Proof.
  intros Hfree Hrun.
  destruct (run_after_lock future_state queue_user_delay now ids fuel s s' r Hfree Hrun)
    as (_ & Hlock).
  destruct r as [[]|e].
  - intros r' s'' Hnext.
    apply (run_after_lock future_state' queue_user_delay' now' ids' fuel' s' s'' r'
             Hlock Hnext).
  - unfold create_file_processing_tasks, FileProcessLock_islocked.
    rewrite Hlock. eexists. reflexivity.
Qed.

Lemma failed_run_blocks_next_witness :
  exists s' msg,
    create_file_processing_tasks Scenario.late_evening (Ok ["A"])
      Scenario.broker_up (Scenario.always "SUCCESS") 2 Scenario.idle
    = Some (Raise (ValueError "hour must be in 0..23"), s') /\
    create_file_processing_tasks Scenario.afternoon (Ok ["A"])
      Scenario.broker_up (Scenario.always "SUCCESS") 2 s'
    = Some (Raise (ProcessingOverlapError msg), s').
Proof.
  eexists.
  refine ((fun H => match H with ex_intro _ msg Hm => ex_intro _ msg (conj eq_refl Hm) end)
            (failed_run_blocks_next (Scenario.always "SUCCESS") (Scenario.always "SUCCESS")
               Scenario.broker_up Scenario.broker_up
               Scenario.late_evening Scenario.afternoon (Ok ["A"]) (Ok ["A"])
               2 2 Scenario.idle _ (Raise (ValueError "hour must be in 0..23"))
               eq_refl eq_refl)).
Defined.

End OrchestratorExtra.

(** ** The database models: properties *)

Module ModelsSpec.

Import Models.

(** *** Dictionaries *)

Section DictFacts.

Context {V : Type}.

Lemma contains_get (k : string) (d : Dict V) :
  dict_contains k d = true <-> exists v, dict_get k d = Some v.
Proof.
  unfold dict_contains, dict_get.
  induction d as [|[k' v'] d IH]; simpl.
  - split; [discriminate | intros (v & Hv); discriminate].
  - unfold has_key at 1 3. simpl. destruct (String.eqb k' k); simpl.
    + split; [exists v'; reflexivity | reflexivity].
    + exact IH.
Qed.

Lemma not_contains_get (k : string) (d : Dict V) :
  dict_contains k d = false <-> dict_get k d = None.
Proof.
  split; intros H.
  - destruct (dict_get k d) as [v|] eqn:E; [|reflexivity].
    assert (dict_contains k d = true) by (apply contains_get; exists v; exact E).
    congruence.
  - destruct (dict_contains k d) eqn:E; [|reflexivity].
    apply contains_get in E as (v & Hv). congruence.
Qed.

Lemma get_set_same (k : string) (v : V) (d : Dict V) :
  dict_get k (dict_set k v d) = Some v.
Proof.
  unfold dict_set. destruct (dict_contains k d) eqn:Hc.
  - unfold dict_contains, dict_get in *.
    induction d as [|[k' v'] d IH]; [discriminate|].
    cbn [existsb map find] in Hc |- *.
    change (has_key k (k', v')) with (String.eqb k' k) in *.
    destruct (String.eqb k' k) eqn:E.
    + change (has_key k (k, v)) with (String.eqb k k).
      rewrite String.eqb_refl. reflexivity.
    + change (has_key k (k', v')) with (String.eqb k' k). rewrite E.
      apply IH. exact Hc.
  - apply not_contains_get in Hc. unfold dict_get in *.
    induction d as [|[k' v'] d IH]; cbn [app find] in Hc |- *.
    + change (has_key k (k, v)) with (String.eqb k k).
      rewrite String.eqb_refl. reflexivity.
    + change (has_key k (k', v')) with (String.eqb k' k) in *.
      destruct (String.eqb k' k); [discriminate | apply IH; exact Hc].
Qed.

Lemma get_set_other (k k' : string) (v : V) (d : Dict V) :
  k' <> k -> dict_get k' (dict_set k v d) = dict_get k' d.
Proof.
  intros Hne.
  assert (Hkk : String.eqb k k' = false) by (apply String.eqb_neq; congruence).
  unfold dict_set. destruct (dict_contains k d).
  - unfold dict_get. induction d as [|[k0 v0] d IH]; [reflexivity|].
    cbn [map find].
    change (has_key k (k0, v0)) with (String.eqb k0 k).
    destruct (String.eqb k0 k) eqn:E.
    + apply String.eqb_eq in E. subst k0.
      change (has_key k' (k, v)) with (String.eqb k k').
      change (has_key k' (k, v0)) with (String.eqb k k').
      rewrite Hkk. exact IH.
    + destruct (has_key k' (k0, v0)); [reflexivity | exact IH].
  - unfold dict_get. induction d as [|[k0 v0] d IH]; cbn [app find].
    + change (has_key k' (k, v)) with (String.eqb k k'). rewrite Hkk. reflexivity.
    + destruct (has_key k' (k0, v0)); [reflexivity | exact IH].
Qed.

Lemma contains_set (k k' : string) (v : V) (d : Dict V) :
  dict_contains k' (dict_set k v d) = String.eqb k' k || dict_contains k' d.
Proof.
  destruct (String.eqb_spec k' k) as [-> | Hne]; simpl.
  - apply contains_get. exists v. apply get_set_same.
  - pose proof (get_set_other k k' v d Hne) as Hg.
    destruct (dict_contains k' d) eqn:Hc.
    + apply contains_get in Hc as (v' & Hv). apply contains_get. exists v'. congruence.
    + apply not_contains_get in Hc. apply not_contains_get. congruence.
Qed.

Lemma get_remove_same (k : string) (d : Dict V) :
  dict_get k (filter (fun kv => negb (has_key k kv)) d) = None.
Proof.
  unfold dict_get. induction d as [|[k0 v0] d IH]; [reflexivity|].
  cbn [filter]. destruct (has_key k (k0, v0)) eqn:E; cbn [negb]; [exact IH|].
  cbn [find]. rewrite E. exact IH.
Qed.

Lemma get_remove_other (k k' : string) (d : Dict V) :
  k' <> k -> dict_get k' (filter (fun kv => negb (has_key k kv)) d) = dict_get k' d.
Proof.
  intros Hne.
  assert (Hkk : String.eqb k k' = false) by (apply String.eqb_neq; congruence).
  unfold dict_get. induction d as [|[k0 v0] d IH]; [reflexivity|].
  cbn [filter find].
  change (has_key k (k0, v0)) with (String.eqb k0 k).
  destruct (String.eqb k0 k) eqn:E; cbn [negb].
  - apply String.eqb_eq in E. subst k0.
    change (has_key k' (k, v0)) with (String.eqb k k'). rewrite Hkk. exact IH.
  - cbn [find]. destruct (has_key k' (k0, v0)); [reflexivity | exact IH].
Qed.

(** What [pop] gives and what it leaves. *)
Lemma pop_returns (k : string) (d d' : Dict V) (v : V) :
  dict_pop k d = Return (v, d') ->
  dict_get k d = Some v /\
  dict_get k d' = None /\
  forall k', k' <> k -> dict_get k' d' = dict_get k' d.
Proof.
  unfold dict_pop. destruct (dict_get k d) as [v0|] eqn:Hg; [|discriminate].
  intros H. injection H as <- <-.
  split; [reflexivity|]. split; [apply get_remove_same|].
  intros k' Hne. apply get_remove_other. exact Hne.
Qed.

Lemma pop_throws (k : string) (d : Dict V) (e : PyExn) :
  dict_pop k d = Throw e -> e = KeyError k /\ dict_get k d = None.
Proof.
  unfold dict_pop. destruct (dict_get k d) as [v0|] eqn:Hg; [discriminate|].
  intros H. injection H as <-. auto.
Qed.


End DictFacts.

(** *** [generate_objectid_string] *)

Section ObjectIdFacts.

Variable OBJECT_ID_ALLOWED_CHARS : string.
Variable row_exists : string -> string -> bool.
Variable rng : nat -> nat.

Local Open Scope nat_scope.

Local Abbreviation chars := (list_ascii_of_string OBJECT_ID_ALLOWED_CHARS).
Local Abbreviation try_ids := (try_object_ids OBJECT_ID_ALLOWED_CHARS row_exists rng).
Local Abbreviation generate :=
  (generate_objectid_string OBJECT_ID_ALLOWED_CHARS row_exists rng).
Local Abbreviation candidate := (drawn OBJECT_ID_ALLOWED_CHARS rng).

Lemma string_length_of_list (l : list ascii) :
  String.length (string_of_list_ascii l) = List.length l.
Proof. induction l as [|c l IH]; simpl; [reflexivity | f_equal; exact IH]. Qed.

Lemma alphabet_nonempty :
  OBJECT_ID_ALLOWED_CHARS <> EmptyString -> chars <> [].
Proof. destruct OBJECT_ID_ALLOWED_CHARS; [congruence | discriminate]. Qed.

Lemma random_chars_draws (n pos : nat) :
  chars <> [] ->
  random_chars OBJECT_ID_ALLOWED_CHARS rng n pos =
  Return (map (fun i => nth (rng (pos + i) mod List.length chars) chars Ascii.zero)
            (seq 0 n)).
Proof.
  intros Hne. revert pos. induction n as [|n IH]; intros pos; [reflexivity|].
  cbn [random_chars]. rewrite IH. unfold random_choice.
  destruct chars as [|c cs] eqn:Hchars; [congruence|].
  cbn [seq map]. rewrite <- seq_shift, map_map. f_equal. f_equal.
  - rewrite Nat.add_0_r. apply nth_indep. apply Nat.mod_upper_bound. discriminate.
  - apply map_ext. intros i. rewrite Nat.add_succ_r. reflexivity.
Qed.

Lemma random_object_id_drawn (pos : nat) :
  OBJECT_ID_ALLOWED_CHARS <> EmptyString ->
  random_object_id OBJECT_ID_ALLOWED_CHARS rng pos = Return (candidate pos).
Proof.
  intros Hne. unfold random_object_id.
  rewrite random_chars_draws by (apply alphabet_nonempty; exact Hne). reflexivity.
Qed.

(** A candidate has 24 characters, all of the alphabet. *)
Lemma candidate_shape (pos : nat) :
  OBJECT_ID_ALLOWED_CHARS <> EmptyString ->
  String.length (candidate pos) = 24 /\
  Forall (fun c => In c chars) (list_ascii_of_string (candidate pos)).
Proof.
  intros Hne. apply alphabet_nonempty in Hne. unfold drawn. split.
  - rewrite string_length_of_list, length_map, length_seq. reflexivity.
  - rewrite list_ascii_of_string_of_list_ascii. apply Forall_forall.
    intros c Hc. apply in_map_iff in Hc as (i & <- & _).
    apply nth_In. apply Nat.mod_upper_bound.
    destruct chars; [congruence | discriminate].
Qed.

(** The loop of attempts: the first candidate that is free is returned, and
    the loop gives up when all the candidates are taken. *)
Lemma try_ids_spec (n : nat) (cls_name field_name : string) (pos : nat) :
  OBJECT_ID_ALLOWED_CHARS <> EmptyString ->
  (exists k,
      k < n /\
      row_exists field_name (candidate (pos + 24 * k)) = false /\
      (forall j, j < k -> row_exists field_name (candidate (pos + 24 * j)) = true) /\
      try_ids n cls_name field_name pos =
        (Return (candidate (pos + 24 * k)), pos + 24 * (k + 1))) \/
  ((forall k, k < n -> row_exists field_name (candidate (pos + 24 * k)) = true) /\
   try_ids n cls_name field_name pos =
     (Throw (ObjectIdError
               ("Could not generate unique id for " ++ cls_name ++ ".")%string),
      pos + 24 * n)).
Proof.
  intros Hne. revert pos. induction n as [|n IH]; intros pos.
  - right. split; [lia|]. cbn [try_object_ids]. do 2 f_equal. lia.
  - cbn [try_object_ids]. rewrite random_object_id_drawn by exact Hne.
    destruct (row_exists field_name (candidate pos)) eqn:Hrow; cbn [negb].
    + destruct (IH (pos + 24)) as [(k & Hk & Hfree & Hbefore & Hrun) | (Hall & Hrun)].
      * left. exists (S k). split; [lia|].
        replace (pos + 24 * S k) with (pos + 24 + 24 * k) by lia.
        split; [exact Hfree|]. split.
        -- intros [|j] Hj.
           ++ replace (pos + 24 * 0) with pos by lia. exact Hrow.
           ++ replace (pos + 24 * S j) with (pos + 24 + 24 * j) by lia.
              apply Hbefore. lia.
        -- rewrite Hrun. f_equal. lia.
      * right. split.
        -- intros [|k] Hk.
           ++ replace (pos + 24 * 0) with pos by lia. exact Hrow.
           ++ replace (pos + 24 * S k) with (pos + 24 + 24 * k) by lia.
              apply Hall. lia.
        -- rewrite Hrun. f_equal. lia.
    + left. exists 0. replace (pos + 24 * 0) with pos by lia.
      split; [lia|]. split; [exact Hrow|]. split; [lia|]. f_equal.
Qed.

(** X9: an id that [generate_objectid_string] returns is in no row of the
    table, has exactly 24 characters, all of [OBJECT_ID_ALLOWED_CHARS], and
    is the first of the candidates drawn that was free: at most ten
    candidates were drawn, 24 random characters each. *)
Theorem objectid_is_fresh (cls_name field_name : string) (pos pos' : nat)
    (object_id : string) :
  generate_objectid_string OBJECT_ID_ALLOWED_CHARS row_exists rng
    cls_name field_name pos = (Return object_id, pos') ->
  row_exists field_name object_id = false /\
  String.length object_id = 24 /\
  Forall (fun c => In c chars) (list_ascii_of_string object_id) /\
  exists k,
    k < 10 /\
    object_id = drawn OBJECT_ID_ALLOWED_CHARS rng (pos + 24 * k) /\
    pos' = pos + 24 * (k + 1) /\
    forall j, j < k ->
      row_exists field_name (drawn OBJECT_ID_ALLOWED_CHARS rng (pos + 24 * j)) = true.
Proof.
  intros Hgen.
  assert (Hne : OBJECT_ID_ALLOWED_CHARS <> EmptyString).
  { intros Hempty. unfold generate_objectid_string in Hgen.
    cbn [try_object_ids] in Hgen. unfold random_object_id in Hgen.
    rewrite Hempty in Hgen. discriminate. }
  unfold generate_objectid_string in Hgen.
  destruct (try_ids_spec 10 cls_name field_name pos Hne)
    as [(k & Hk & Hfree & Hbefore & Hrun) | (_ & Hrun)];
    rewrite Hrun in Hgen; [|discriminate].
  injection Hgen as <- <-.
  destruct (candidate_shape (pos + 24 * k) Hne) as (Hlen & Hchars).
  repeat split; try assumption.
  exists k. repeat split; assumption.
Qed.

(** X10: [generate_objectid_string] raises [ObjectIdError] exactly when the
    ten candidates it draws are all taken; it then has drawn 240 random
    characters and no more.  With an empty alphabet the first draw already
    fails, with the [IndexError] of [random.choice]. *)
Theorem objectid_gives_up_after_ten (cls_name field_name : string) (pos : nat) :
  (OBJECT_ID_ALLOWED_CHARS = EmptyString ->
   generate_objectid_string OBJECT_ID_ALLOWED_CHARS row_exists rng
     cls_name field_name pos =
   (Throw (IndexError "Cannot choose from an empty sequence"), pos)) /\
  (OBJECT_ID_ALLOWED_CHARS <> EmptyString ->
   ((forall k, k < 10 ->
       row_exists field_name (drawn OBJECT_ID_ALLOWED_CHARS rng (pos + 24 * k)) = true)
    <->
    generate_objectid_string OBJECT_ID_ALLOWED_CHARS row_exists rng
      cls_name field_name pos =
    (Throw (ObjectIdError
              ("Could not generate unique id for " ++ cls_name ++ ".")%string),
     pos + 240))).
Proof.
  split.
  - intros Hempty. unfold generate_objectid_string. cbn [try_object_ids].
    unfold random_object_id. rewrite Hempty. reflexivity.
  - intros Hne. unfold generate_objectid_string.
    destruct (try_ids_spec 10 cls_name field_name pos Hne)
      as [(k & Hk & Hfree & Hbefore & Hrun) | (Hall & Hrun)].
    + split.
      * intros Hall. rewrite (Hall k Hk) in Hfree. discriminate.
      * intros Hgen. rewrite Hrun in Hgen. discriminate.
    + split; [|intros _; exact Hall].
      intros _. rewrite Hrun. reflexivity.
Qed.

End ObjectIdFacts.

Lemma objectid_is_fresh_witness :
  taken "object_id" "89abcdef0123456789abcdef" = false /\
  String.length "89abcdef0123456789abcdef" = 24%nat /\
  Forall (fun c => In c (list_ascii_of_string hex_chars))
    (list_ascii_of_string "89abcdef0123456789abcdef").
Proof.
  destruct (objectid_is_fresh hex_chars taken counting "Survey" "object_id" 0 48
              "89abcdef0123456789abcdef" eq_refl) as (Hfree & Hlen & Hchars & _).
  repeat split; assumption.
Defined.

Lemma objectid_gives_up_after_ten_witness :
  generate_objectid_string hex_chars all_taken counting "Study" "object_id" 0 =
  (Throw (ObjectIdError "Could not generate unique id for Study."), 240%nat).
Proof.
  destruct (objectid_gives_up_after_ten hex_chars all_taken counting
              "Study" "object_id" 0) as (_ & Hten).
  apply Hten; [discriminate|]. intros k _. reflexivity.
Defined.

(** *** [as_unpacked_native_python] and [as_dict] *)

Section ValuesFacts.

Variable Value : Type.
Variable json_loads : Value -> Outcome Value.
Variable str : Value -> Value.

Local Abbreviation unpack := (unpack_fields Value json_loads str).
Local Abbreviation unpacked := (as_unpacked_native_python Value json_loads str).
Local Abbreviation value_of := (unpacked_value Value json_loads str).

Lemma unpack_keys (self : Instance Value) (remove_timestamps : bool)
    (fields : list Field) (d0 d : Dict Value) :
  unpack self remove_timestamps fields d0 = Return d ->
  forall k,
    dict_contains k d =
    dict_contains k d0 ||
    existsb (fun f => exported remove_timestamps f && String.eqb (name f) k) fields.
Proof.
  revert d0. induction fields as [|f fields IH]; intros d0 Hrun k.
  - injection Hrun as <-. cbn [existsb]. rewrite orb_false_r. reflexivity.
  - cbn [unpack_fields existsb] in Hrun |- *. unfold exported at 1.
    destruct (kind f).
    + rewrite (IH d0 Hrun k). reflexivity.
    + destruct (json_loads (getattr self (name f))) as [v|e]; [|discriminate].
      rewrite (IH _ Hrun k), contains_set, (String.eqb_sym k (name f)).
      cbn [andb]. destruct (String.eqb (name f) k), (dict_contains k d0); reflexivity.
    + destruct (remove_timestamps && is_timestamp (name f)); cbn [negb andb].
      * rewrite (IH d0 Hrun k). reflexivity.
      * rewrite (IH _ Hrun k), contains_set, (String.eqb_sym k (name f)).
        destruct (String.eqb (name f) k), (dict_contains k d0); reflexivity.
    + destruct (remove_timestamps && is_timestamp (name f)); cbn [negb andb].
      * rewrite (IH d0 Hrun k). reflexivity.
      * rewrite (IH _ Hrun k), contains_set, (String.eqb_sym k (name f)).
        destruct (String.eqb (name f) k), (dict_contains k d0); reflexivity.
Qed.

Lemma unpack_values (self : Instance Value) (remove_timestamps : bool)
    (fields : list Field) (d0 d : Dict Value) :
  NoDup (map name fields) ->
  unpack self remove_timestamps fields d0 = Return d ->
  (forall k, ~ In k (map name fields) -> dict_get k d = dict_get k d0) /\
  (forall f, In f fields -> exported remove_timestamps f = true ->
     exists v, value_of self f = Return v /\ dict_get (name f) d = Some v).
Proof.
  revert d0. induction fields as [|f fields IH]; intros d0 Hnodup Hrun.
  - injection Hrun as <-. split; [reflexivity | intros f []].
  - cbn [map] in Hnodup. apply NoDup_cons_iff in Hnodup as [Hfresh Hnodup].
    cbn [unpack_fields] in Hrun.
    assert (Hskip : forall d1,
               unpack self remove_timestamps fields d1 = Return d ->
               exported remove_timestamps f = false -> d1 = d0 ->
               (forall k, ~ In k (map name (f :: fields)) -> dict_get k d = dict_get k d0) /\
               (forall g, In g (f :: fields) -> exported remove_timestamps g = true ->
                  exists v, value_of self g = Return v /\ dict_get (name g) d = Some v)).
    { intros d1 Hrest Hout ->. destruct (IH d0 Hnodup Hrest) as (Hother & Hval).
      split.
      - intros k Hk. apply Hother. intros Hin. apply Hk. right. exact Hin.
      - intros g [<- | Hg] Hexp; [congruence | apply Hval; assumption]. }
    assert (Hput : forall v,
               unpack self remove_timestamps fields (dict_set (name f) v d0) = Return d ->
               value_of self f = Return v ->
               (forall k, ~ In k (map name (f :: fields)) -> dict_get k d = dict_get k d0) /\
               (forall g, In g (f :: fields) -> exported remove_timestamps g = true ->
                  exists v', value_of self g = Return v' /\ dict_get (name g) d = Some v')).
    { intros v Hrest Hv. destruct (IH _ Hnodup Hrest) as (Hother & Hval).
      split.
      - intros k Hk. rewrite Hother by (intros Hin; apply Hk; right; exact Hin).
        apply get_set_other. intros ->. apply Hk. left. reflexivity.
      - intros g [<- | Hg] Hexp; [|apply Hval; assumption].
        exists v. split; [exact Hv|].
        rewrite (Hother (name f) Hfresh). apply get_set_same. }
    unfold exported, unpacked_value in Hskip, Hput.
    destruct (kind f).
    + apply (Hskip d0 Hrun); reflexivity.
    + destruct (json_loads (getattr self (name f))) as [v|e] eqn:Hj; [|discriminate].
      apply (Hput v Hrun). reflexivity.
    + destruct (remove_timestamps && is_timestamp (name f)).
      * apply (Hskip d0 Hrun); reflexivity.
      * apply (Hput _ Hrun). reflexivity.
    + destruct (remove_timestamps && is_timestamp (name f)).
      * apply (Hskip d0 Hrun); reflexivity.
      * apply (Hput _ Hrun). reflexivity.
Qed.

Lemma unpack_total (self : Instance Value) (remove_timestamps : bool)
    (fields : list Field) (d0 : Dict Value) :
  (forall f, In f fields -> kind f = JSONTextField ->
     exists v, json_loads (getattr self (name f)) = Return v) <->
  exists d, unpack self remove_timestamps fields d0 = Return d.
Proof.
  revert d0. induction fields as [|f fields IH]; intros d0.
  - split; [intros _; eexists; reflexivity | intros _ f []].
  - cbn [unpack_fields]. split.
    + intros Hok.
      assert (Hrest : forall d1, exists d,
                 unpack self remove_timestamps fields d1 = Return d).
      { intros d1. apply IH. intros g Hg. apply Hok. right. exact Hg. }
      destruct (kind f) eqn:Hk; try apply Hrest.
      * destruct (Hok f (or_introl eq_refl) Hk) as (v & ->). apply Hrest.
      * destruct (remove_timestamps && is_timestamp (name f)); apply Hrest.
      * destruct (remove_timestamps && is_timestamp (name f)); apply Hrest.
    + intros (d & Hrun) g [<- | Hg] Hjson.
      * rewrite Hjson in Hrun.
        destruct (json_loads (getattr self (name f))) as [v|e]; [|discriminate].
        exists v. reflexivity.
      * assert (Hrest : exists d1 d', unpack self remove_timestamps fields d1 = Return d').
        { destruct (kind f).
          - eauto.
          - destruct (json_loads (getattr self (name f))); [eauto | discriminate].
          - destruct (remove_timestamps && is_timestamp (name f)); eauto.
          - destruct (remove_timestamps && is_timestamp (name f)); eauto. }
        destruct Hrest as (d1 & d' & Hrest).
        apply (proj2 (IH d1) (ex_intro _ d' Hrest) g Hg Hjson).
Qed.

Lemma own_name_only (P : Field -> bool) (fields : list Field) (f : Field) :
  NoDup (map name fields) -> In f fields ->
  existsb (fun g => P g && String.eqb (name g) (name f)) fields = P f.
Proof.
  induction fields as [|g fields IH]; intros Hnodup Hin; [destruct Hin|].
  cbn [map] in Hnodup. apply NoDup_cons_iff in Hnodup as [Hfresh Hnodup].
  cbn [existsb]. destruct Hin as [-> | Hin].
  - rewrite String.eqb_refl, andb_true_r.
    destruct (P f); [reflexivity|]. cbn [orb].
    apply not_true_is_false. intros Hex. apply existsb_exists in Hex as (h & Hh & Hp).
    apply andb_prop in Hp as [_ Hn]. apply String.eqb_eq in Hn.
    apply Hfresh. rewrite <- Hn. apply in_map. exact Hh.
  - replace (String.eqb (name g) (name f)) with false.
    + rewrite andb_false_r. apply IH; assumption.
    + symmetry. apply String.eqb_neq. intros Heq. apply Hfresh. rewrite Heq.
      apply in_map. exact Hin.
Qed.

Lemma as_dict_fold (self : Instance Value) (k : string) (fields : list Field)
    (d0 : Dict Value) :
  dict_get k
    (fold_left (fun d field => dict_set (name field) (getattr self (name field)) d)
       fields d0) =
  if in_dec string_dec k (map name fields) then Some (getattr self k)
  else dict_get k d0.
Proof.
  revert d0. induction fields as [|f fields IH]; intros d0; [reflexivity|].
  cbn [fold_left]. rewrite IH.
  destruct (in_dec string_dec k (map name fields)) as [Hin | Hnot];
    destruct (in_dec string_dec k (map name (f :: fields))) as [Hin' | Hnot'];
    try reflexivity.
  - exfalso. apply Hnot'. right. exact Hin.
  - destruct Hin' as [Heq | Hin']; [|contradiction].
    cbn [map] in Heq. rewrite <- Heq. apply get_set_same.
  - apply get_set_other. intros Heq. apply Hnot'. left. symmetry. exact Heq.
Qed.

Lemma as_dict_get (self : Instance Value) (k : string) :
  In k (map name (meta_fields self)) ->
  dict_get k (as_dict Value self) = Some (getattr self k).
Proof.
  intros Hin. unfold as_dict. rewrite as_dict_fold.
  destruct (in_dec string_dec k (map name (meta_fields self))); [reflexivity | contradiction].
Qed.

(** X11: the keys of the dictionary that [as_unpacked_native_python]
    returns are the names of the fields it exports and no others: a related
    field is never a key, and with [remove_timestamps] neither is
    [created_on] or [last_updated], unless it is a JSON field, which is
    tested first. *)
Theorem unpacked_keys (self : Instance Value) (remove_timestamps : bool)
    (d : Dict Value) :
  NoDup (map name (meta_fields self)) ->
  unpacked self remove_timestamps = Return d ->
  (forall f, In f (meta_fields self) ->
     dict_contains (name f) d = exported remove_timestamps f) /\
  (forall k, dict_contains k d = true -> In k (map name (meta_fields self))).
Proof.
  intros Hnodup Hrun. unfold as_unpacked_native_python in Hrun.
  pose proof (unpack_keys self remove_timestamps _ [] d Hrun) as Hkeys.
  split.
  - intros f Hf. rewrite Hkeys. cbn [dict_contains existsb orb].
    apply (own_name_only (exported remove_timestamps)); assumption.
  - intros k Hk. rewrite Hkeys in Hk. cbn [dict_contains existsb orb] in Hk.
    apply existsb_exists in Hk as (f & Hf & Hp).
    apply andb_prop in Hp as [_ Hn]. apply String.eqb_eq in Hn. subst k.
    apply in_map. exact Hf.
Qed.

(** X12: under the name of an exported field the dictionary holds the
    decoded document for a JSON field, [str] of the value for a time zone
    field and the value itself for any other field; for those other fields
    it agrees with [as_dict]. *)
Theorem unpacked_values (self : Instance Value) (remove_timestamps : bool)
    (d : Dict Value) (f : Field) :
  NoDup (map name (meta_fields self)) ->
  unpacked self remove_timestamps = Return d ->
  In f (meta_fields self) ->
  exported remove_timestamps f = true ->
  (exists v, value_of self f = Return v /\ dict_get (name f) d = Some v) /\
  (kind f = OtherField ->
   dict_get (name f) d = dict_get (name f) (as_dict Value self)).
Proof.
  intros Hnodup Hrun Hf Hexp. unfold as_unpacked_native_python in Hrun.
  destruct (unpack_values self remove_timestamps _ [] d Hnodup Hrun) as (_ & Hval).
  destruct (Hval f Hf Hexp) as (v & Hv & Hget).
  split; [exists v; split; assumption|].
  intros Hkind. rewrite Hget, as_dict_get by (apply in_map; exact Hf).
  unfold unpacked_value in Hv. rewrite Hkind in Hv. injection Hv as <-. reflexivity.
Qed.

(** X13: [as_unpacked_native_python] returns a dictionary exactly when
    [json.loads] accepts the value of every JSON field; otherwise the
    exception of [json.loads] comes out and there is no dictionary. *)
Theorem unpacked_needs_valid_json (self : Instance Value) (remove_timestamps : bool) :
  (exists d, unpacked self remove_timestamps = Return d) <->
  (forall f, In f (meta_fields self) -> kind f = JSONTextField ->
     exists v, json_loads (getattr self (name f)) = Return v).
Proof.
  unfold as_unpacked_native_python. symmetry. apply unpack_total.
Qed.

(** X14: [Study.as_native_python] never lets the encryption key out: its
    result has no key [encryption_key], whatever [remove_encryption_key]
    says, and keeps the other entries of the dictionary of the parent
    class; when the parent's dictionary has no such key, [pop] raises
    [KeyError]. *)
Theorem study_hides_encryption_key (super_as_native_python : bool -> Dict Value)
    (remove_timestamps remove_encryption_key : bool) :
  let result :=
    Study_as_native_python Value super_as_native_python remove_timestamps
      remove_encryption_key in
  result =
    Study_as_native_python Value super_as_native_python remove_timestamps
      (negb remove_encryption_key) /\
  (forall ret, result = Return ret ->
     dict_contains "encryption_key" ret = false /\
     forall k, k <> "encryption_key" ->
       dict_get k ret = dict_get k (super_as_native_python remove_timestamps)) /\
  (dict_contains "encryption_key" (super_as_native_python remove_timestamps) = false
   <-> result = Throw (KeyError "encryption_key")).
Proof.
  cbv zeta. unfold Study_as_native_python.
  split; [reflexivity|]. split.
  - intros ret Hret.
    destruct (dict_pop "encryption_key" (super_as_native_python remove_timestamps))
      as [[v ret']|e] eqn:Hpop; [|discriminate].
    injection Hret as <-. apply pop_returns in Hpop as (_ & Hgone & Hother).
    split; [apply not_contains_get; exact Hgone | exact Hother].
  - split.
    + intros Hmissing. apply not_contains_get in Hmissing.
      unfold dict_pop. rewrite Hmissing. reflexivity.
    + intros Hthrow.
      destruct (dict_pop "encryption_key" (super_as_native_python remove_timestamps))
        as [[v ret']|e] eqn:Hpop; [discriminate|].
      apply pop_throws in Hpop as (_ & Hnone). apply not_contains_get. exact Hnone.
Qed.


(** One turn of the loop of [get_surveys_for_study] does to a survey what
    [format_survey_for_study] does. *)
Lemma surveys_loop_step (requesting_os : string) (survey : Survey Value)
    (rest : list (Survey Value)) (acc : list (Dict Value)) :
  surveys_loop Value requesting_os (survey :: rest) acc =
  match format_survey_for_study Value survey with
  | Throw e => Throw e
  | Return d =>
      if String.eqb requesting_os "ANDROID" &&
         String.eqb (survey_type survey) "image_survey"
      then surveys_loop Value requesting_os rest acc
      else surveys_loop Value requesting_os rest (acc ++ [d])
  end.
Proof.
  cbn [surveys_loop]. unfold format_survey_for_study.
  destruct (dict_pop "id" (as_native_python survey)) as [[v1 d1]|e]; [|reflexivity].
  destruct (dict_pop "deleted" d1) as [[v2 d2]|e]; [|reflexivity].
  destruct (dict_pop "object_id" d2) as [[v3 d3]|e]; reflexivity.
Qed.

Lemma surveys_loop_spec (requesting_os : string) (surveys : list (Survey Value))
    (acc : list (Dict Value)) :
  (forall s, In s surveys -> exists d, format_survey_for_study Value s = Return d) ->
  exists out,
    surveys_loop Value requesting_os surveys acc = Return (acc ++ out) /\
    Forall2 (fun s d => format_survey_for_study Value s = Return d)
      (filter (fun s => negb (String.eqb requesting_os "ANDROID" &&
                                String.eqb (survey_type s) "image_survey")) surveys)
      out.
Proof.
  revert acc. induction surveys as [|s surveys IH]; intros acc Hok.
  - exists []. rewrite app_nil_r. split; [reflexivity | constructor].
  - rewrite surveys_loop_step.
    destruct (Hok s (or_introl eq_refl)) as (d & Hd). rewrite Hd.
    assert (Hrest : forall s', In s' surveys ->
               exists d', format_survey_for_study Value s' = Return d')
      by (intros s' Hs'; apply Hok; right; exact Hs').
    cbn [filter].
    destruct (String.eqb requesting_os "ANDROID" &&
              String.eqb (survey_type s) "image_survey"); cbn [negb].
    + apply IH. exact Hrest.
    + destruct (IH (acc ++ [d]) Hrest) as (out & Hrun & Hout).
      exists (d :: out). rewrite Hrun, <- app_assoc. split; [reflexivity|].
      constructor; assumption.
Qed.

Lemma surveys_loop_returns (requesting_os : string) (surveys : list (Survey Value))
    (acc out : list (Dict Value)) :
  surveys_loop Value requesting_os surveys acc = Return out ->
  forall s, In s surveys -> exists d, format_survey_for_study Value s = Return d.
Proof.
  revert acc. induction surveys as [|s surveys IH]; intros acc Hrun s' Hs'; [destruct Hs'|].
  rewrite surveys_loop_step in Hrun.
  destruct (format_survey_for_study Value s) as [d|e] eqn:Hd; [|discriminate].
  destruct Hs' as [<- | Hs']; [exists d; exact Hd|].
  destruct (String.eqb requesting_os "ANDROID" &&
            String.eqb (survey_type s) "image_survey"); eapply IH; eauto.
Qed.

Lemma sent_to_filter (requesting_os : string) (surveys : list (Survey Value)) :
  filter (fun s => negb (String.eqb requesting_os "ANDROID" &&
                           String.eqb (survey_type s) "image_survey"))
    (filter (fun s => negb (deleted s)) surveys) =
  filter (sent_to Value requesting_os) surveys.
Proof.
  induction surveys as [|s surveys IH]; [reflexivity|].
  cbn [filter]. unfold sent_to at 1. destruct (deleted s); cbn [negb andb filter].
  - exact IH.
  - destruct (negb _); rewrite IH; reflexivity.
Qed.

(** X16: [get_surveys_for_study] gives, in their order, what
    [format_survey_for_study] gives for the surveys that are not deleted,
    leaving the image surveys out when the request comes from ANDROID.  It
    returns exactly when every survey that is not deleted can be formatted:
    an image survey is formatted before it is left out. *)
Theorem get_surveys_formats_each (surveys : list (Survey Value))
    (requesting_os : string) :
  ((exists out, get_surveys_for_study Value surveys requesting_os = Return out) <->
   (forall s, In s surveys -> deleted s = false ->
      exists d, format_survey_for_study Value s = Return d)) /\
  (forall out, get_surveys_for_study Value surveys requesting_os = Return out ->
     Forall2 (fun s d => format_survey_for_study Value s = Return d)
       (filter (sent_to Value requesting_os) surveys) out).
Proof.
  unfold get_surveys_for_study.
  assert (Hlive : (forall s, In s surveys -> deleted s = false ->
                     exists d, format_survey_for_study Value s = Return d) <->
                  (forall s, In s (filter (fun s => negb (deleted s)) surveys) ->
                     exists d, format_survey_for_study Value s = Return d)).
  { split.
    - intros H s Hs. apply filter_In in Hs as [Hs Hd]. apply H; [exact Hs|].
      destruct (deleted s); [discriminate | reflexivity].
    - intros H s Hs Hd. apply H. apply filter_In. split; [exact Hs|].
      rewrite Hd. reflexivity. }
  split.
  - rewrite Hlive. split.
    + intros (out & Hrun). eapply surveys_loop_returns. exact Hrun.
    + intros Hok. destruct (surveys_loop_spec requesting_os _ [] Hok) as (out & Hrun & _).
      exists out. exact Hrun.
  - intros out Hrun.
    pose proof (surveys_loop_returns _ _ _ _ Hrun) as Hok.
    destruct (surveys_loop_spec requesting_os _ [] Hok) as (out' & Hrun' & Hout).
    rewrite Hrun in Hrun'. injection Hrun' as ->.
    rewrite sent_to_filter in Hout. exact Hout.
Qed.

End ValuesFacts.

Lemma sample_names_distinct : NoDup (map name sample_fields).
Proof.
  cbn [map sample_fields name].
  repeat constructor; cbn [In]; intuition discriminate.
Qed.

Lemma unpacked_keys_witness :
  exists d,
    as_unpacked_native_python string loads_ok (fun v => v) sample true = Return d /\
    dict_contains "study" d = false /\
    dict_contains "created_on" d = false /\
    dict_contains "content" d = true.
Proof.
  eexists.
  refine ((fun H => match H with
                    | conj Hkeys _ =>
                        conj eq_refl
                          (conj (Hkeys {| name := "study"; kind := RelatedField |} _)
                             (conj (Hkeys {| name := "created_on"; kind := OtherField |} _)
                                (Hkeys {| name := "content"; kind := JSONTextField |} _)))
                    end)
            (unpacked_keys string loads_ok (fun v => v) sample true _
               sample_names_distinct eq_refl));
    cbn; tauto.
Defined.

Lemma unpacked_values_witness :
  exists d,
    as_unpacked_native_python string loads_ok (fun v => v) sample true = Return d /\
    (exists v, loads_ok "content" = Return v /\ dict_get "content" d = Some v).
Proof.
  eexists.
  refine ((fun H => match H with conj Hv _ => conj eq_refl Hv end)
            (unpacked_values string loads_ok (fun v => v) sample true _
               {| name := "content"; kind := JSONTextField |}
               sample_names_distinct eq_refl _ eq_refl)).
  cbn. tauto.
Defined.

Lemma unpacked_needs_valid_json_witness :
  exists d, as_unpacked_native_python string loads_ok (fun v => v) sample false = Return d.
Proof.
  apply (unpacked_needs_valid_json string loads_ok (fun v => v) sample false).
  intros f _ _. eexists. reflexivity.
Defined.

Lemma study_hides_encryption_key_witness :
  exists ret,
    Study_as_native_python string
      (fun _ => [("name", "trial"); ("encryption_key", "secret"); ("is_test", "True")])
      true false = Return ret /\
    dict_contains "encryption_key" ret = false.
Proof.
  destruct (study_hides_encryption_key string
              (fun _ => [("name", "trial"); ("encryption_key", "secret");
                         ("is_test", "True")])
              true false) as (_ & Hret & _).
  eexists. split; [reflexivity|]. apply (Hret _ eq_refl).
Defined.


Lemma get_surveys_formats_each_witness :
  exists out,
    get_surveys_for_study string
      [sample_survey false "image_survey"; sample_survey true "tracking_survey";
       sample_survey false "audio_survey"] "ANDROID" = Return out /\
    Forall2 (fun s d => format_survey_for_study string s = Return d)
      [sample_survey false "audio_survey"] out.
Proof.
  destruct (get_surveys_formats_each string
              [sample_survey false "image_survey"; sample_survey true "tracking_survey";
               sample_survey false "audio_survey"] "ANDROID") as (_ & Hout).
  eexists. split; [reflexivity|]. apply (Hout _ eq_refl).
Defined.


(** *** [Survey.create_with_settings] *)

Section CreationFacts.

Variable Value : Type.
Variable PyStr : string -> Value.
Variable AUDIO_SURVEY_SETTINGS_json : Value.
Variable IMAGE_SURVEY_SETTINGS_json : Value.
Variable Row : Type.
Variable objects_create : Dict Value -> Outcome Row.
Variable OBJECT_ID_ALLOWED_CHARS : string.
Variable row_exists : string -> string -> bool.
Variable rng : nat -> nat.

Local Abbreviation create :=
  (create_with_settings Value PyStr AUDIO_SURVEY_SETTINGS_json
     IMAGE_SURVEY_SETTINGS_json Row objects_create OBJECT_ID_ALLOWED_CHARS
     row_exists rng).
Local Abbreviation generate :=
  (generate_objectid_string OBJECT_ID_ALLOWED_CHARS row_exists rng).
Local Abbreviation settings :=
  (settings_for Value AUDIO_SURVEY_SETTINGS_json IMAGE_SURVEY_SETTINGS_json).

(** X17: [Survey.create_with_settings] creates the row from the caller's
    keyword arguments, the survey type and a generated object id.  The
    settings of the caller are kept whatever the type; without them an audio
    or image survey gets the default settings of its type and any other
    survey gets none.  When no object id can be generated, the exception
    comes out and nothing is created. *)
Theorem create_with_settings_row (survey_type : string) (kwargs : Dict Value)
    (pos : nat) :
  (forall object_id pos',
     generate "Survey" "object_id" pos = (Return object_id, pos') ->
     dict_contains "object_id" kwargs = false ->
     exists args,
       create survey_type kwargs pos = (objects_create args, pos') /\
       dict_get "object_id" args = Some (PyStr object_id) /\
       dict_get "survey_type" args = Some (PyStr survey_type) /\
       dict_get "settings" args = settings survey_type (dict_get "settings" kwargs) /\
       forall k, k <> "object_id" -> k <> "survey_type" -> k <> "settings" ->
         dict_get k args = dict_get k kwargs) /\
  (forall e pos',
     generate "Survey" "object_id" pos = (Throw e, pos') ->
     create survey_type kwargs pos = (Throw e, pos')).
Proof.
  unfold create_with_settings, Survey_create_with_object_id. split.
  - intros object_id pos' Hgen Hfresh. rewrite Hgen.
    set (kwargs' :=
           if String.eqb survey_type AUDIO_SURVEY && negb (dict_contains "settings" kwargs)
           then dict_set "settings" AUDIO_SURVEY_SETTINGS_json kwargs
           else if String.eqb survey_type IMAGE_SURVEY &&
                   negb (dict_contains "settings" kwargs)
           then dict_set "settings" IMAGE_SURVEY_SETTINGS_json kwargs
           else kwargs).
    assert (Hother : forall k, k <> "settings" -> dict_get k kwargs' = dict_get k kwargs).
    { intros k Hk. unfold kwargs'.
      destruct (String.eqb survey_type AUDIO_SURVEY && negb (dict_contains "settings" kwargs));
        [apply get_set_other; exact Hk|].
      destruct (String.eqb survey_type IMAGE_SURVEY && negb (dict_contains "settings" kwargs));
        [apply get_set_other; exact Hk | reflexivity]. }
    assert (Hsettings : dict_get "settings" kwargs' =
                        settings survey_type (dict_get "settings" kwargs)).
    { unfold kwargs', settings_for.
      destruct (dict_contains "settings" kwargs) eqn:Hc.
      - rewrite !andb_false_r. apply contains_get in Hc as (v & ->). reflexivity.
      - apply not_contains_get in Hc. rewrite Hc, !andb_true_r.
        destruct (String.eqb survey_type AUDIO_SURVEY); [apply get_set_same|].
        destruct (String.eqb survey_type IMAGE_SURVEY); [apply get_set_same | exact Hc]. }
    assert (Hno : dict_contains "object_id" (("survey_type", PyStr survey_type) :: kwargs')
                  = false).
    { apply not_contains_get.
      change (dict_get "object_id" (("survey_type", PyStr survey_type) :: kwargs'))
        with (dict_get "object_id" kwargs').
      rewrite Hother by discriminate. apply not_contains_get. exact Hfresh. }
    rewrite Hno. eexists. split; [reflexivity|].
    split; [reflexivity|]. split; [reflexivity|]. split.
    + change (dict_get "settings" kwargs' =
              settings survey_type (dict_get "settings" kwargs)).
      exact Hsettings.
    + intros k N1 N2 N3.
      assert (E1 : String.eqb "object_id" k = false) by (apply String.eqb_neq; congruence).
      assert (E2 : String.eqb "survey_type" k = false) by (apply String.eqb_neq; congruence).
      unfold dict_get. cbn [find]. unfold has_key at 1 2. cbn [fst].
      rewrite E1, E2. apply (Hother k N3).
  - intros e pos' Hgen. rewrite Hgen. reflexivity.
Qed.

End CreationFacts.

Lemma create_with_settings_row_witness :
  exists args,
    create_with_settings string (fun v => v) "audio defaults" "image defaults"
      (Dict string) (fun args => Return args) hex_chars taken counting
      "audio_survey" [("study", "3")] 0
    = (Return args, 48%nat) /\
    dict_get "object_id" args = Some "89abcdef0123456789abcdef" /\
    dict_get "settings" args = Some "audio defaults".
Proof.
  destruct (create_with_settings_row string (fun v => v) "audio defaults"
              "image defaults" (Dict string) (fun args => Return args) hex_chars
              taken counting "audio_survey" [("study", "3")] 0) as (Hrow & _).
  destruct (Hrow "89abcdef0123456789abcdef" 48%nat eq_refl eq_refl)
    as (args & Hrun & Hid & _ & Hset & _).
  exists args. repeat split; assumption.
Defined.

End ModelsSpec.
